(** * incident_tracker.py: the record store, its mutations and its queries

    A shallow embedding of [src/incident_tracker.py].  The program is a
    command-line tool; every command reads the whole store from one JSON
    file, works on the decoded value in memory and, when it succeeds,
    writes the whole value back.

    Modelling choices, all visible in the definitions below:
    - the decoded store is a dynamically typed JSON value ([json]); the
      Python operations the commands apply to it ([v[k]], [v.get], [for],
      truthiness, [+], [.lower()]) are embedded with the exceptions they
      raise on the other shapes;
    - a Python [dict] is an insertion-ordered association list;
    - the file is described by what [json.load] does on it: absent,
      rejected with [JSONDecodeError], or decoded to a value;
    - [uuid.uuid4()] and [datetime.utcnow()] are inputs of the commands;
    - a string is the UTF-8 encoding of a Python [str]; [str.lower] and
      [str.upper], which follow the Unicode character database, are an
      interface ([Builtins]) of which the ASCII functions are one
      implementation; JSON numbers are integers. *)

From stdpp Require Import base option list strings numbers pretty.

Local Open Scope string_scope.
Local Open Scope list_scope.

(** ** Vocabulary (lines 5-8) *)

Definition STORE : string := "incidents.json".
Definition NIST_PHASES : list string :=
  ["identify"; "protect"; "detect"; "respond"; "recover"].
Definition STATUSES : list string :=
  ["open"; "in_progress"; "contained"; "eradicated"; "recovered"; "closed"].
Definition SEVERITIES : list string := ["low"; "medium"; "high"; "critical"].

(** ** Strings *)

(** The line feed of the Python literal ["\n"]. *)
Definition nl : string := String (Ascii.ascii_of_nat 10) EmptyString.

(** [c.lower()] on one ASCII character. *)
Definition lower_ascii (c : Ascii.ascii) : Ascii.ascii :=
  let n := Ascii.nat_of_ascii c in
  if (65 <=? n)%nat && (n <=? 90)%nat then Ascii.ascii_of_nat (n + 32) else c.

(** [s.lower()] where only the letters A to Z change. *)
Fixpoint ascii_lower (s : string) : string :=
  match s with
  | EmptyString => EmptyString
  | String c r => String (lower_ascii c) (ascii_lower r)
  end.

(** [c.upper()] on one ASCII character. *)
Definition upper_ascii (c : Ascii.ascii) : Ascii.ascii :=
  let n := Ascii.nat_of_ascii c in
  if (97 <=? n)%nat && (n <=? 122)%nat then Ascii.ascii_of_nat (n - 32) else c.

(** [s.upper()] where only the letters a to z change. *)
Fixpoint ascii_upper (s : string) : string :=
  match s with
  | EmptyString => EmptyString
  | String c r => String (upper_ascii c) (ascii_upper r)
  end.

(** Every byte of [s] is an ASCII character. *)
Fixpoint is_ascii (s : string) : bool :=
  match s with
  | EmptyString => true
  | String c r => (Ascii.nat_of_ascii c <? 128)%nat && is_ascii r
  end.

(** A byte [10xxxxxx], which continues a character of UTF-8. *)
Definition is_continuation (c : Ascii.ascii) : bool :=
  let n := Ascii.nat_of_ascii c in (128 <=? n)%nat && (n <? 192)%nat.

(** The continuation bytes at the head of [s], and the characters that
    follow them. *)
Fixpoint utf8_split (s : string) : string * list string :=
  match s with
  | EmptyString => (EmptyString, [])
  | String c r =>
      let (cont, chars) := utf8_split r in
      if is_continuation c then (String c cont, chars)
      else (EmptyString, String c cont :: chars)
  end.

(** The characters of [s], each a string of its own: what a loop over a
    Python [str] visits. *)
Definition utf8_chars (s : string) : list string :=
  let (cont, chars) := utf8_split s in
  if String.eqb cont "" then chars else cont :: chars.

(** [len(s)]: the number of characters, not of bytes. *)
Definition utf8_length (s : string) : nat := length (utf8_chars s).

(** ** What the program takes from Python's [str]

    [str.lower] and [str.upper] follow the Unicode character database,
    which is no part of this development.  They are taken as an
    interface, with the three facts about [str.lower] that the proofs
    use: lower-casing twice is lower-casing once, only the empty string
    lower-cases to the empty string, and on ASCII text only the letters
    A to Z change. *)
Class Builtins : Type := {
  lower : string → string;
  upper : string → string;
  lower_idem : ∀ s, lower (lower s) = lower s;
  lower_empty : ∀ s, String.eqb (lower s) "" = String.eqb s "";
  lower_on_ascii : ∀ s, is_ascii s = true → lower s = ascii_lower s
}.

(** The ASCII functions implement the interface; the sample inputs of
    this development are evaluated with them. *)
Definition ascii_builtins : Builtins.
Proof.
  refine {| lower := ascii_lower; upper := ascii_upper |}.
  - intros s. induction s as [|c s IH]; [reflexivity|].
    cbn [ascii_lower]. rewrite IH. f_equal.
    destruct c as [[] [] [] [] [] [] [] []]; reflexivity.
  - intros s. destruct s; reflexivity.
  - reflexivity.
Defined.

(** [sep.join(xs)]. *)
Fixpoint join (sep : string) (xs : list string) : string :=
  match xs with
  | [] => ""
  | [x] => x
  | x :: r => x +:+ sep +:+ join sep r
  end.

(** [s[:n]]. *)
Definition prefix (n : nat) (s : string) : string := String.substring 0 n s.

(** [x in xs] for a string and a list of strings. *)
Definition str_in (x : string) (xs : list string) : bool :=
  bool_decide (x ∈ xs).

(** Truthiness of an optional command-line string: [None] and [""] are
    false. *)
Definition supplied (o : option string) : bool :=
  match o with
  | Some s => negb (String.eqb s "")
  | None => false
  end.

(** ** JSON values and Python dictionaries *)

#[local] Set Warnings "-register-all".

Inductive json : Type :=
| JNull
| JBool (b : bool)
| JNum (n : Z)
| JStr (s : string)
| JArr (xs : list json)
| JObj (kvs : list (string * json)).

(** A [dict] with string keys, in insertion order. *)
Abbreviation dict := (list (string * json)).

(** [d.get(k)], [None] of Rocq standing for an absent key. *)
Fixpoint dict_get (k : string) (d : dict) : option json :=
  match d with
  | [] => None
  | (k', v) :: r => if String.eqb k' k then Some v else dict_get k r
  end.

(** [d[k] = v]: an existing key keeps its place, a new key goes last. *)
Fixpoint dict_set (k : string) (v : json) (d : dict) : dict :=
  match d with
  | [] => [(k, v)]
  | (k', v') :: r =>
      if String.eqb k' k then (k', v) :: r else (k', v') :: dict_set k v r
  end.

(** ** Exceptions and results *)

Inductive exn : Type :=
| SystemExit (msg : string)
| KeyError (k : string)
| TypeError
| AttributeError
| JSONDecodeError.

Inductive result (A : Type) : Type :=
| Done (a : A)
| Raised (e : exn).
Arguments Done {A} a.
Arguments Raised {A} e.

#[global] Instance result_ret : MRet result := fun A a => Done a.
#[global] Instance result_bind : MBind result := fun A B f m =>
  match m with
  | Done a => f a
  | Raised e => Raised e
  end.

(** ** The Python operations the commands use on decoded values *)

(** [bool(v)]. *)
Definition py_bool (v : json) : bool :=
  match v with
  | JNull => false
  | JBool b => b
  | JNum n => negb (n =? 0)%Z
  | JStr s => negb (String.eqb s "")
  | JArr xs => match xs with [] => false | _ => true end
  | JObj kvs => match kvs with [] => false | _ => true end
  end.

(** [v[k]] for a string [k]: only a [dict] can be indexed by a string. *)
Definition py_getitem (v : json) (k : string) : result json :=
  match v with
  | JObj kvs =>
      match dict_get k kvs with
      | Some x => Done x
      | None => Raised (KeyError k)
      end
  | _ => Raised TypeError
  end.

(** [v.get(k, dflt)]: only a [dict] has [get]. *)
Definition py_get (v : json) (k : string) (dflt : json) : result json :=
  match v with
  | JObj kvs => Done (default dflt (dict_get k kvs))
  | _ => Raised AttributeError
  end.

(** [for x in v]: the items a loop over [v] visits, in order.  A [dict]
    yields its keys and a string its characters. *)
Definition py_iter (v : json) : result (list json) :=
  match v with
  | JArr xs => Done xs
  | JObj kvs => Done (map (fun kv => JStr (fst kv)) kvs)
  | JStr s => Done (map JStr (utf8_chars s))
  | _ => Raised TypeError
  end.

(** [len(v)]. *)
Definition py_len (v : json) : result nat :=
  match v with
  | JArr xs => Done (length xs)
  | JObj kvs => Done (length kvs)
  | JStr s => Done (utf8_length s)
  | _ => Raised TypeError
  end.

(** [v == s] for a string [s]: no other shape of value equals a string. *)
Definition py_eq_str (v : json) (s : string) : bool :=
  match v with
  | JStr t => String.eqb t s
  | _ => false
  end.

(** [v + s] for a string [s]: defined on strings only. *)
Definition py_add_str (v : json) (s : string) : result string :=
  match v with
  | JStr t => Done (t +:+ s)
  | _ => Raised TypeError
  end.

(** [v.append(x)]: only a list has [append]. *)
Definition py_append (v : json) (x : json) : result json :=
  match v with
  | JArr xs => Done (JArr (xs ++ [x]))
  | _ => Raised AttributeError
  end.

(** ** The store file and the command monad *)

(** [incidents.json], seen through [os.path.exists] and [json.load]. *)
Inductive store_file : Type :=
| Missing                  (* the path does not exist *)
| Undecodable              (* [json.load] raises [JSONDecodeError] *)
| Holding (v : json).      (* [json.load] returns [v] *)

(** [_load] (lines 10-17). *)
Definition _load (f : store_file) : json :=
  match f with
  | Missing => JArr []
  | Undecodable => JArr []
  | Holding v => v
  end.

(** [_save] (lines 19-21): the file now decodes to [data]. *)
Definition _save (data : json) (f : store_file) : store_file := Holding data.

(** A command runs on the file and leaves a result and the file. *)
Definition cmd (A : Type) : Type := store_file -> result A * store_file.

#[global] Instance cmd_ret : MRet cmd := fun A a f => (Done a, f).
#[global] Instance cmd_bind : MBind cmd := fun A B k m f =>
  match m f with
  | (Done a, f') => k a f'
  | (Raised e, f') => (Raised e, f')
  end.

Definition load : cmd json := fun f => (Done (_load f), f).
Definition save (data : json) : cmd unit := fun f => (Done tt, _save data f).
Definition exists_store : cmd bool := fun f =>
  (Done (match f with Missing => false | _ => true end), f).
(** A Python operation inside a command; an exception ends the command. *)
Definition lift {A} (r : result A) : cmd A := fun f => (r, f).
(** [sys.exit(msg)]. *)
Definition sys_exit {A} (msg : string) : cmd A := lift (Raised (SystemExit msg)).

(** ** Commands *)

Section Program.

Context {builtins : Builtins}.

(** [v.lower()]: only a string has [lower]. *)
Definition py_lower (v : json) : result string :=
  match v with
  | JStr t => Done (lower t)
  | _ => Raised AttributeError
  end.

(** [v.upper()]: only a string has [upper]. *)
Definition py_upper (v : json) : result string :=
  match v with
  | JStr t => Done (upper t)
  | _ => Raised AttributeError
  end.


(** *** [init_store] (lines 23-28) *)

Definition init_store (force : bool) : cmd (list string) :=
  there ← exists_store;
  if there && negb force then
    mret [STORE +:+ " already exists. Use --force to overwrite."]
  else
    _ ← save (JArr []);
    mret ["Initialized empty store at " +:+ STORE].

(** *** [add_incident] (lines 30-50) *)

(** The namespace [argparse] hands to [add_incident]. *)
Record add_args : Type := AddArgs {
  add_title : string;
  add_category : string;
  add_severity : string;
  add_phase : string;
  add_owner : option string;
  add_notes : option string
}.

(** [o or ""]. *)
Definition or_empty (o : option string) : string :=
  match o with
  | Some s => s
  | None => ""
  end.

(** The dictionary of lines 32-42; [uuid] is [str(uuid.uuid4())] and [now]
    is [datetime.utcnow().isoformat()]. *)
Definition new_incident (args : add_args) (uuid now : string) : dict :=
  [ ("id", JStr (prefix 8 uuid));
    ("title", JStr (add_title args));
    ("category", JStr (lower (add_category args)));
    ("severity", JStr (lower (add_severity args)));
    ("phase", JStr (lower (add_phase args)));
    ("status", JStr "open");
    ("reported_at", JStr (now +:+ "Z"));
    ("owner", JStr (or_empty (add_owner args)));
    ("notes", JStr (or_empty (add_notes args))) ].

Definition invalid_severity : string :=
  "Invalid severity. Use one of: " +:+ join ", " SEVERITIES.
Definition invalid_phase_add : string :=
  "Invalid phase. Use one of: " +:+ join ", " NIST_PHASES.

Definition add_incident (args : add_args) (uuid now : string)
  : cmd (list string) :=
  data ← load;
  let inc := new_incident args uuid now in
  if negb (str_in (lower (add_severity args)) SEVERITIES) then
    sys_exit invalid_severity
  else if negb (str_in (lower (add_phase args)) NIST_PHASES) then
    sys_exit invalid_phase_add
  else
    data' ← lift (py_append data (JObj inc));
    _ ← save data';
    mret ["✅ Added incident " +:+ prefix 8 uuid +:+ " — " +:+ add_title args].

(** *** [list_incidents] (lines 52-64): the list [filtered] *)

Record list_args : Type := ListArgs {
  list_severity : option string;
  list_phase : option string;
  list_status : option string;
  list_owner : option string
}.

(** [arg and inc[k] != arg.lower()]. *)
Definition field_differs (inc : json) (k : string) (arg : option string)
  : result bool :=
  match arg with
  | Some s =>
      if String.eqb s "" then Done false
      else v ← py_getitem inc k; Done (negb (py_eq_str v (lower s)))
  | None => Done false
  end.

(** [arg and (inc.get("owner","").lower() != arg.lower())]. *)
Definition owner_differs (inc : json) (arg : option string) : result bool :=
  match arg with
  | Some s =>
      if String.eqb s "" then Done false
      else
        o ← py_get inc "owner" (JStr "");
        lo ← py_lower o;
        Done (negb (String.eqb lo (lower s)))
  | None => Done false
  end.

(** The loop of lines 55-64; each [continue] goes on with the rest. *)
Fixpoint filter_loop (args : list_args) (items : list json)
  : result (list json) :=
  match items with
  | [] => Done []
  | inc :: rest =>
      c1 ← field_differs inc "severity" (list_severity args);
      if c1 : bool then filter_loop args rest else
      c2 ← field_differs inc "phase" (list_phase args);
      if c2 : bool then filter_loop args rest else
      c3 ← field_differs inc "status" (list_status args);
      if c3 : bool then filter_loop args rest else
      c4 ← owner_differs inc (list_owner args);
      if c4 : bool then filter_loop args rest else
      r ← filter_loop args rest;
      Done (inc :: r)
  end.

(** Lines 53-64: the list [filtered].  What lines 66-72 print from it is
    [list_incidents_printed], further down. *)
Definition list_incidents (args : list_args) : cmd (list json) :=
  data ← load;
  items ← lift (py_iter data);
  lift (filter_loop args items).

(** *** [update_incident] (lines 74-94) *)

Record update_args : Type := UpdateArgs {
  upd_id : string;
  upd_status : option string;
  upd_phase : option string;
  upd_owner : option string;
  upd_notes : option string
}.

Definition invalid_status : string :=
  "Invalid status. Use: " +:+ join ", " STATUSES.
Definition invalid_phase_upd : string :=
  "Invalid phase. Use: " +:+ join ", " NIST_PHASES.

(** Lines 78-81. *)
Definition set_status (arg : option string) (inc : dict) : result dict :=
  match arg with
  | Some s =>
      if String.eqb s "" then Done inc
      else if negb (str_in (lower s) STATUSES) then
        Raised (SystemExit invalid_status)
      else Done (dict_set "status" (JStr (lower s)) inc)
  | None => Done inc
  end.

(** Lines 82-85. *)
Definition set_phase (arg : option string) (inc : dict) : result dict :=
  match arg with
  | Some s =>
      if String.eqb s "" then Done inc
      else if negb (str_in (lower s) NIST_PHASES) then
        Raised (SystemExit invalid_phase_upd)
      else Done (dict_set "phase" (JStr (lower s)) inc)
  | None => Done inc
  end.

(** Lines 86-87: [is not None], so the empty string is written too. *)
Definition set_owner (arg : option string) (inc : dict) : dict :=
  match arg with
  | Some s => dict_set "owner" (JStr s) inc
  | None => inc
  end.

(** Lines 88-89.  [inc.get("notes")] is [None] for an absent key. *)
Definition add_notes_to (arg : option string) (inc : dict) : result dict :=
  match arg with
  | Some s =>
      if String.eqb s "" then Done inc
      else
        let old := default JNull (dict_get "notes" inc) in
        head ← (if py_bool old
                then py_add_str (default (JStr "") (dict_get "notes" inc)) nl
                else Done "");
        Done (dict_set "notes" (JStr (head +:+ s)) inc)
  | None => Done inc
  end.

(** The body of the [if] of line 77, up to the time stamp of line 90. *)
Definition update_fields (args : update_args) (now : string) (inc : dict)
  : result dict :=
  inc1 ← set_status (upd_status args) inc;
  inc2 ← set_phase (upd_phase args) inc1;
  inc3 ← add_notes_to (upd_notes args) (set_owner (upd_owner args) inc2);
  Done (dict_set "updated_at" (JStr (now +:+ "Z")) inc3).

(** The loop of lines 76-93 over the items of [data].  [Some items'] is
    the list with the first matching record rewritten in place; [None]
    means that the loop ran to its end. *)
Fixpoint update_scan (args : update_args) (now : string) (items : list json)
  : result (option (list json)) :=
  match items with
  | [] => Done None
  | inc :: rest =>
      i ← py_getitem inc "id";
      if py_eq_str i (upd_id args) then
        match inc with
        | JObj kvs =>
            kvs' ← update_fields args now kvs;
            Done (Some (JObj kvs' :: rest))
        | _ => Raised TypeError
        end
      else
        r ← update_scan args now rest;
        Done (option_map (cons inc) r)
  end.

(** Only the items of a list can be indexed by ["id"], so [data] is a
    list whenever a record matched, and [_save(data)] writes that list. *)
Definition update_incident (args : update_args) (now : string)
  : cmd (list string) :=
  data ← load;
  items ← lift (py_iter data);
  r ← lift (update_scan args now items);
  match r with
  | Some items' =>
      _ ← save (JArr items');
      mret ["🛠️ Updated " +:+ upd_id args]
  | None => mret ["No incident with id " +:+ upd_id args +:+ " found."]
  end.

(** *** [stats] (lines 112-120): the three counters *)

(** A [Counter]: keys in first-seen order with their counts. *)
Abbreviation counter := (list (json * nat)).

(** Lists and dictionaries cannot be hashed. *)
Definition hashable (v : json) : bool :=
  match v with
  | JArr _ | JObj _ => false
  | _ => true
  end.

(** [a == b] on hashable values; [True == 1] and [False == 0]. *)
Definition py_key_eq (a b : json) : bool :=
  match a, b with
  | JNull, JNull => true
  | JBool x, JBool y => Bool.eqb x y
  | JBool x, JNum n | JNum n, JBool x => (n =? (if x then 1 else 0))%Z
  | JNum n, JNum m => (n =? m)%Z
  | JStr s, JStr t => String.eqb s t
  | _, _ => false
  end.

(** [c[k] += 1]. *)
Fixpoint counter_add (k : json) (c : counter) : counter :=
  match c with
  | [] => [(k, 1)]
  | (k', n) :: r =>
      if py_key_eq k' k then (k', S n) :: r else (k', n) :: counter_add k r
  end.

Fixpoint count_into (c : counter) (xs : list json) : result counter :=
  match xs with
  | [] => Done c
  | x :: r =>
      if hashable x then count_into (counter_add x c) r else Raised TypeError
  end.

(** [Counter(xs)]. *)
Definition Counter (xs : list json) : result counter := count_into [] xs.

(** [[d[k] for d in items]]. *)
Definition column (k : string) (items : list json) : result (list json) :=
  mapM (fun d => py_getitem d k) items.

Inductive stats_result : Type :=
| NoIncidents                                    (* lines 114-116 *)
| Counts (by_sev by_phase by_status : counter).  (* lines 118-120 *)

(** Lines 113-120.  The printing of the counters (lines 122-130) belongs
    to the report. *)
Definition stats : cmd stats_result :=
  data ← load;
  if negb (py_bool data) then mret NoIncidents
  else
    items ← lift (py_iter data);
    by_sev ← lift (column "severity" items ≫= Counter);
    by_phase ← lift (column "phase" items ≫= Counter);
    by_status ← lift (column "status" items ≫= Counter);
    mret (Counts by_sev by_phase by_status).

(** *** [seed] (lines 132-140) *)

(** [sample] is [sample_data.json], seen like the store file; the
    [json.load] of line 138 is not guarded. *)
Definition seed (sample : store_file) : cmd (list string) :=
  match sample with
  | Missing => mret ["sample_data.json not found."]
  | Undecodable => lift (Raised JSONDecodeError)
  | Holding v =>
      _ ← save v;
      n ← lift (py_len v);
      mret ["🌱 Seeded " +:+ pretty n +:+ " incidents into " +:+ STORE]
  end.

(** * Vocabulary of the statements *)

(** ** Records and their identifiers *)

(** The ["id"] entry of an item, when it is a dictionary that has one. *)
Definition id_of (x : json) : option json :=
  match x with
  | JObj kvs => dict_get "id" kvs
  | _ => None
  end.

(** The loop of [update_incident] passes over [x]: [x["id"]] is defined
    and differs from [id]. *)
Definition other_id (id : string) (x : json) : bool :=
  match py_getitem x "id" with
  | Done v => negb (py_eq_str v id)
  | Raised _ => false
  end.

(** [kvs] is the first record of [items] whose id is [id]. *)
Definition first_match (id : string) (items pre : list json) (kvs : dict)
    (post : list json) : Prop :=
  items = pre ++ JObj kvs :: post ∧
  forallb (other_id id) pre = true ∧
  dict_get "id" kvs = Some (JStr id).

(** A supplied option whose lower-cased value is outside its vocabulary. *)
Definition bad_choice (arg : option string) (vocab : list string) : bool :=
  supplied arg && negb (str_in (lower (default "" arg)) vocab).

(** ** Sample data *)

(** A record as [add_incident] writes it. *)
Definition demo_fields : dict :=
  [ ("id", JStr "1a2b3c4d"); ("title", JStr "Phish test");
    ("category", JStr "phishing"); ("severity", JStr "low");
    ("phase", JStr "detect"); ("status", JStr "open");
    ("reported_at", JStr "2024-05-01T10:00:00Z");
    ("owner", JStr ""); ("notes", JStr "") ].
Definition demo_record : json := JObj demo_fields.

(** ** Notes *)

(** The text held under ["notes"]; an absent entry reads as empty. *)
Definition notes_text (kvs : dict) (old : string) : Prop :=
  dict_get "notes" kvs = Some (JStr old) ∨
  (dict_get "notes" kvs = None ∧ old = "").

(** [old] followed by [s] on a line of its own; no separator after an
    empty [old]. *)
Definition joined (old s : string) : string :=
  if String.eqb old "" then s else old +:+ nl +:+ s.

(** [update <id> --notes s]. *)
Definition note_args (id s : string) : update_args :=
  UpdateArgs id None None None (Some s).

(** ** Identifiers in the store *)

(** The ids of the records of a list, in order. *)
Definition ids (items : list json) : list json := omap id_of items.

(** The ids a store file holds. *)
Definition stored_ids (f : store_file) : list json :=
  match _load f with
  | JArr items => ids items
  | _ => []
  end.

(** No two records of the store have the same id. *)
Definition unique_ids (f : store_file) : Prop := NoDup (stored_ids f).

(** An incident whose draw repeats the id of [demo_record]. *)
Definition clash_args : add_args :=
  AddArgs "Stolen laptop" "Data_Loss" "HIGH" "Respond" (Some "soc") None.
Definition clash_uuid : string := "1a2b3c4d-5e6f-4a7b-8c9d-0e1f2a3b4c5d".
Definition clash_now : string := "2024-05-03T09:00:00".

(** ** Runs of the tool *)

(** One invocation of the command line. *)
Inductive op : Type :=
| Init (force : bool)
| Add (args : add_args) (uuid now : string)
| List (args : list_args)
| Update (args : update_args) (now : string)
| Stats
| Seed (sample : store_file).

(** The store file an invocation leaves. *)
Definition run (o : op) (f : store_file) : store_file :=
  match o with
  | Init force => snd (init_store force f)
  | Add args uuid now => snd (add_incident args uuid now f)
  | List args => snd (list_incidents args f)
  | Update args now => snd (update_incident args now f)
  | Stats => snd (stats f)
  | Seed sample => snd (seed sample f)
  end.

(** The stores the tool can produce, starting without a file. *)
Inductive reachable : store_file → Prop :=
| reach_start : reachable Missing
| reach_step o f : reachable f → reachable (run o f).

(** The conditions the code leaves to its environment: the id drawn for a
    new incident is not yet in the store, and a sample that is seeded has
    unique ids itself. *)
Definition guarded (o : op) (f : store_file) : Prop :=
  match o with
  | Add _ uuid _ => JStr (prefix 8 uuid) ∉ stored_ids f
  | Seed sample => unique_ids sample
  | _ => True
  end.

Inductive reachable_guarded : store_file → Prop :=
| guarded_start : reachable_guarded Missing
| guarded_step o f :
    reachable_guarded f → guarded o f → reachable_guarded (run o f).

(** ** Shapes of documents *)

(** A sequence of records: a list whose items are all dictionaries. *)
Definition is_record_sequence (v : json) : bool :=
  match v with
  | JArr xs => forallb (fun x => match x with JObj _ => true | _ => false end) xs
  | _ => false
  end.

(** ** Listing *)

(** A record the loop of [list_incidents] can examine with any predicate:
    a dictionary with a severity, a phase and a status, whose owner, when
    present, is a string. *)
Definition is_listable (x : json) : bool :=
  match x with
  | JObj kvs =>
      bool_decide (is_Some (dict_get "severity" kvs)) &&
      bool_decide (is_Some (dict_get "phase" kvs)) &&
      bool_decide (is_Some (dict_get "status" kvs)) &&
      match dict_get "owner" kvs with
      | Some (JStr _) | None => true
      | Some _ => false
      end
  | _ => false
  end.

(** What the code compares: the stored value with the lower-cased
    argument. *)
Definition field_is (k : string) (arg : option string) (x : json) : bool :=
  negb (supplied arg) ||
  match x with
  | JObj kvs =>
      match dict_get k kvs with
      | Some v => py_eq_str v (lower (default "" arg))
      | None => false
      end
  | _ => false
  end.

(** The owner, read as empty when absent, compared with both sides
    lower-cased. *)
Definition owner_is (arg : option string) (x : json) : bool :=
  negb (supplied arg) ||
  match x with
  | JObj kvs =>
      match default (JStr "") (dict_get "owner" kvs) with
      | JStr o => String.eqb (lower o) (lower (default "" arg))
      | _ => false
      end
  | _ => false
  end.

(** The records [list_incidents] keeps. *)
Definition keeps (args : list_args) (x : json) : bool :=
  field_is "severity" (list_severity args) x &&
  field_is "phase" (list_phase args) x &&
  field_is "status" (list_status args) x &&
  owner_is (list_owner args) x.

(** The specification's predicate: equality that ignores case on both
    sides. *)
Definition field_is_ci (k : string) (arg : option string) (x : json) : bool :=
  negb (supplied arg) ||
  match x with
  | JObj kvs =>
      match dict_get k kvs with
      | Some (JStr s) => String.eqb (lower s) (lower (default "" arg))
      | _ => false
      end
  | _ => false
  end.

Definition matches_ci (args : list_args) (x : json) : bool :=
  field_is_ci "severity" (list_severity args) x &&
  field_is_ci "phase" (list_phase args) x &&
  field_is_ci "status" (list_status args) x &&
  owner_is (list_owner args) x.

(** The entry under [k] is a string in lower case, as [add_incident] and
    [update_incident] write severity, phase and status. *)
Definition stored_lower (k : string) (x : json) : bool :=
  match x with
  | JObj kvs =>
      match dict_get k kvs with
      | Some (JStr s) => String.eqb (lower s) s
      | _ => false
      end
  | _ => false
  end.

Definition is_normalised (x : json) : bool :=
  stored_lower "severity" x && stored_lower "phase" x &&
  stored_lower "status" x.

(** The four predicates of [args], one per invocation. *)
Definition single_filters (args : list_args) : list list_args :=
  [ ListArgs (list_severity args) None None None;
    ListArgs None (list_phase args) None None;
    ListArgs None None (list_status args) None;
    ListArgs None None None (list_owner args) ].

(** The loop of [list_incidents] run once per element of [ps], each run
    on the result of the one before; the last element of [ps] runs
    first. *)
Definition filter_chain (ps : list list_args) (items : list json)
  : result (list json) :=
  foldr (fun p r => l ← r; filter_loop p l) (Done items) ps.

(** A record written with a capital in its severity, as a seeded sample
    or an edited file can hold it. *)
Definition seeded_record : json :=
  JObj [ ("id", JStr "77aa88bb"); ("title", JStr "Ransom note");
         ("category", JStr "malware"); ("severity", JStr "High");
         ("phase", JStr "respond"); ("status", JStr "open");
         ("reported_at", JStr "2024-04-30T22:15:00Z");
         ("owner", JStr "SOC"); ("notes", JStr "") ].

(** ** Counting *)

Definition is_text (v : json) : bool :=
  match v with
  | JStr _ => true
  | _ => false
  end.

(** The entry of a record under [k] is a string. *)
Definition has_text (k : string) (x : json) : bool :=
  match x with
  | JObj kvs => from_option is_text false (dict_get k kvs)
  | _ => false
  end.

(** A record [stats] can count: severity, phase and status are strings. *)
Definition is_countable (x : json) : bool :=
  has_text "severity" x && has_text "phase" x && has_text "status" x.

Definition keys (c : counter) : list json := map fst c.
Definition total (c : counter) : nat := sum_list_with snd c.

(** How many values of [vs] equal [v]. *)
Definition occurrences (v : json) (vs : list json) : nat :=
  length (List.filter (py_key_eq v) vs).

(** [c] counts the values [vs]: its keys are the distinct values of
    [vs], each with the number of its occurrences, and the counts add up
    to the number of values. *)
Definition counts_of (c : counter) (vs : list json) : Prop :=
  NoDup (keys c) ∧
  (∀ v, v ∈ keys c ↔ v ∈ vs) ∧
  (∀ v n, (v, n) ∈ c → n = occurrences v vs ∧ 0 < n) ∧
  total c = length vs.

(** ** Proof support *)

(** Unfolds the command monad down to the store file. *)
Ltac run_cmd :=
  unfold mbind, cmd_bind, mret, cmd_ret, load, save, lift, sys_exit,
    exists_store, _save; simpl.


(** * The rest of the program *)

(** ** [export_csv] (lines 96-110) *)

(** The columns handed to [csv.DictWriter] (lines 103-106). *)
Definition fieldnames : list string :=
  ["id"; "title"; "category"; "severity"; "phase"; "status";
   "reported_at"; "updated_at"; "owner"; "notes"].

(** What can end an export: the [ValueError] of [DictWriter] or an
    exception of the language. *)
Inductive csv_exn : Type :=
| ValueError
| Python (e : exn).

(** [DictWriter._dict_to_list(rowdict)] with the defaults
    [extrasaction="raise"] and [restval=""]: a key outside the columns is
    refused, an absent column yields the empty string.  Only a [dict] has
    [keys]. *)
Definition dict_to_list (rowdict : json) : csv_exn + list json :=
  match rowdict with
  | JObj kvs =>
      if forallb (fun kv => str_in (fst kv) fieldnames) kvs
      then inr (map (fun k => default (JStr "") (dict_get k kvs)) fieldnames)
      else inl ValueError
  | _ => inl (Python AttributeError)
  end.

(** The loop of lines 108-109: the rows written, and the exception that
    stopped the loop if one did. *)
Fixpoint write_rows (items : list json) : list (list json) * option csv_exn :=
  match items with
  | [] => ([], None)
  | inc :: rest =>
      match dict_to_list inc with
      | inr row =>
          let (rows, stop) := write_rows rest in (row :: rows, stop)
      | inl e => ([], Some e)
      end
  end.

(** The file an export leaves: its path and the rows of cells handed to
    the writer, the header first.  The text the [csv] module makes of a
    cell is not part of this development, and [csv_path] is taken to
    name another file than the store. *)
Record csv_file : Type := CsvFile {
  csv_path : string;
  csv_rows : list (list json)
}.

(** [export_csv]: the file written, if one was opened, and either the
    line printed or the exception raised. *)
Definition export_csv (output : option string) (f : store_file)
  : option csv_file * (csv_exn + list string) :=
  let data := _load f in
  if negb (py_bool data) then (None, inr ["No data to export."])
  else
    let path := if supplied output then default "" output
                else "incidents_export.csv" in
    let header := map JStr fieldnames in
    match py_iter data with
    | Raised e => (Some (CsvFile path [header]), inl (Python e))
    | Done items =>
        match write_rows items with
        | (rows, Some e) => (Some (CsvFile path (header :: rows)), inl e)
        | (rows, None) =>
            match py_len data with
            | Raised e => (Some (CsvFile path (header :: rows)), inl (Python e))
            | Done n =>
                (Some (CsvFile path (header :: rows)),
                 inr ["📤 Exported " +:+ pretty n +:+ " incidents to " +:+ path])
            end
        end
    end.

(** * Vocabulary of the further statements *)

(** ** Incidents as the tool writes them *)

(** A string of the vocabulary [vocab]. *)
Definition is_word (vocab : list string) (v : json) : bool :=
  match v with
  | JStr s => str_in s vocab
  | _ => false
  end.

(** What [add_incident] establishes for each entry it writes. *)
Definition requirements : list (string * (json → bool)) :=
  [ ("id", is_text); ("title", is_text); ("category", is_text);
    ("severity", is_word SEVERITIES); ("phase", is_word NIST_PHASES);
    ("status", is_word STATUSES); ("reported_at", is_text);
    ("owner", is_text); ("notes", is_text) ].

(** [kvs] has every required entry, each of the required kind. *)
Definition meets (reqs : list (string * (json → bool))) (kvs : dict) : bool :=
  forallb (fun r => from_option (snd r) false (dict_get (fst r) kvs)) reqs.

(** A record as [add_incident] and [update_incident] leave it: the nine
    entries of creation with severity, phase and status in their
    vocabularies, and no key outside the ten columns. *)
Definition is_incident (x : json) : bool :=
  match x with
  | JObj kvs =>
      meets requirements kvs &&
      forallb (fun kv => str_in (fst kv) fieldnames) kvs
  | _ => false
  end.

(** The store decodes to a list of such records. *)
Definition is_clean (f : store_file) : Prop :=
  ∃ items, _load f = JArr items ∧ forallb is_incident items = true.

(** Invocations other than [seed]. *)
Definition is_seed (o : op) : bool :=
  match o with
  | Seed _ => true
  | _ => false
  end.

(** The stores the tool produces from nothing without seeding. *)
Inductive reachable_unseeded : store_file → Prop :=
| unseeded_start : reachable_unseeded Missing
| unseeded_step o f :
    reachable_unseeded f → is_seed o = false → reachable_unseeded (run o f).

(** ** Arguments up to case *)

Definition lower_opt (o : option string) : option string := lower <$> o.

Definition lower_list_args (args : list_args) : list_args :=
  ListArgs (lower_opt (list_severity args)) (lower_opt (list_phase args))
           (lower_opt (list_status args)) (lower_opt (list_owner args)).

(** ** Counters *)

(** The values of [vs] in the order of their first occurrence, two
    values being the same when Python's [==] says so. *)
Definition first_seen (vs : list json) : list json :=
  foldl (fun seen v =>
           if existsb (fun k => py_key_eq k v) seen then seen else seen ++ [v])
        [] vs.

(** ** Sample data *)



(** A record without an id. *)
Definition nameless_record : json :=
  JObj [ ("title", JStr "Untracked"); ("severity", JStr "low");
         ("phase", JStr "detect"); ("status", JStr "open") ].

(** ** Exports *)


(** The entry of a record under [k]. *)
Definition entry (k : string) (x : json) : option json :=
  match x with
  | JObj kvs => dict_get k kvs
  | _ => None
  end.



(** ** More arguments up to case *)

Definition lower_update_args (args : update_args) : update_args :=
  UpdateArgs (upd_id args) (lower_opt (upd_status args))
             (lower_opt (upd_phase args)) (upd_owner args) (upd_notes args).

Definition lower_add_args (args : add_args) : add_args :=
  AddArgs (add_title args) (lower (add_category args))
          (lower (add_severity args)) (lower (add_phase args))
          (add_owner args) (add_notes args).

(** The entries [update_incident] writes. *)
Definition updated_keys : list string :=
  ["status"; "phase"; "owner"; "notes"; "updated_at"].

(** ** The file in full *)

(** What ends the reading of a file other than [JSONDecodeError], which
    is the one exception [_load] catches: a file that cannot be opened
    or read, bytes that are not UTF-8, an integer literal beyond the
    limit of [int], nesting beyond the recursion limit. *)
Inductive read_error : Type :=
| OSError
| UnicodeDecodeError
| IntegerTooLong
| RecursionError.

(** A file is one that [open] and [json.load] read without any other
    exception, which is what [store_file] describes, or one on which
    they raise. *)
Inductive any_file : Type :=
| Readable (f : store_file)
| Unreadable (e : read_error).

(** [_load] (lines 10-17) on any file: what it returns, or the exception
    that leaves it. *)
Definition load_any (a : any_file) : read_error + json :=
  match a with
  | Readable f => inr (_load f)
  | Unreadable e => inl e
  end.

(** ** [list_incidents] in full (lines 52-72) *)

(** A piece of a printed line: text, or a value that stands for the text
    Python's [str] makes of it. *)
Inductive piece : Type :=
| Text (s : string)
| Value (v : json).

(** The line of lines 71-72 for one record. *)
Definition print_row (inc : json) : result (list piece) :=
  i ← py_getitem inc "id";
  s ← py_getitem inc "severity";
  su ← py_upper s;
  p ← py_getitem inc "phase";
  st ← py_getitem inc "status";
  t ← py_getitem inc "title";
  o ← py_get inc "owner" (JStr "-");
  Done [ Value i; Text " | "; Text su; Text " | "; Value p; Text " | ";
         Value st; Text " | "; Value t; Text " (owner: "; Value o; Text ")" ].

(** The loop of lines 70-72: the lines printed, and the exception that
    stopped the loop if one did. *)
Fixpoint print_rows (items : list json) : list (list piece) * option exn :=
  match items with
  | [] => ([], None)
  | inc :: rest =>
      match print_row inc with
      | Done l => let (ls, stop) := print_rows rest in (l :: ls, stop)
      | Raised e => ([], Some e)
      end
  end.

(** The whole of [list_incidents]: the lines it prints and the exception
    it ends in, if any.  It does not write the store file. *)
Definition list_incidents_printed (args : list_args) (f : store_file)
  : list (list piece) * option exn :=
  match fst (list_incidents args f) with
  | Raised e => ([], Some e)
  | Done [] => ([[Text "No incidents found."]], None)
  | Done filtered => print_rows filtered
  end.

(** ** Printed listings *)

(** A record whose line can be printed: a dictionary with an id, a phase,
    a status and a title, and a string as severity. *)
Definition is_printable (x : json) : bool :=
  match x with
  | JObj kvs =>
      bool_decide (is_Some (dict_get "id" kvs)) &&
      from_option is_text false (dict_get "severity" kvs) &&
      bool_decide (is_Some (dict_get "phase" kvs)) &&
      bool_decide (is_Some (dict_get "status" kvs)) &&
      bool_decide (is_Some (dict_get "title" kvs))
  | _ => false
  end.

(** The string under an entry. *)
Definition text_of (o : option json) : string :=
  match o with
  | Some (JStr s) => s
  | _ => ""
  end.

(** The line of a printable record. *)
Definition row_of (x : json) : list piece :=
  [ Value (default JNull (entry "id" x)); Text " | ";
    Text (upper (text_of (entry "severity" x))); Text " | ";
    Value (default JNull (entry "phase" x)); Text " | ";
    Value (default JNull (entry "status" x)); Text " | ";
    Value (default JNull (entry "title" x)); Text " (owner: ";
    Value (default (JStr "-") (entry "owner" x)); Text ")" ].

(** What a listing prints for the records it keeps. *)
Definition report (kept : list json) : list (list piece) :=
  match kept with
  | [] => [[Text "No incidents found."]]
  | _ => map row_of kept
  end.

(** ** More sample data *)

(** A record with an owner, as [add_incident] writes it. *)
Definition staffed_record : json :=
  JObj [ ("id", JStr "2b3c4d5e"); ("title", JStr "Stolen laptop");
         ("category", JStr "data_loss"); ("severity", JStr "high");
         ("phase", JStr "respond"); ("status", JStr "open");
         ("reported_at", JStr "2024-05-03T09:00:00Z");
         ("owner", JStr "SOC"); ("notes", JStr "") ].

(** A record without an owner and with a number as title. *)
Definition ownerless_record : json :=
  JObj [ ("id", JStr "3c4d5e6f"); ("title", JNum 404);
         ("severity", JStr "medium"); ("phase", JStr "detect");
         ("status", JStr "open") ].

(** Arguments as the command line accepts them, for a second incident. *)
Definition repeat_args : add_args :=
  AddArgs "Stolen laptop" "data_loss" "high" "respond" (Some "soc") None.
Definition fresh_uuid : string := "9f8e7d6c-5e6f-4a7b-8c9d-0e1f2a3b4c5d".
(** * Properties *)

(** ** Dictionaries *)

Lemma dict_get_set_eq k v (d : dict) : dict_get k (dict_set k v d) = Some v.
Proof.
  induction d as [|[k' v'] d IH]; simpl.
  - by rewrite String.eqb_refl.
  - destruct (String.eqb k' k) eqn:E; simpl; by rewrite E.
Qed.

Lemma dict_get_set_ne k k' v (d : dict) :
  k ≠ k' → dict_get k' (dict_set k v d) = dict_get k' d.
Proof.
  intros Hne. induction d as [|[k0 v0] d IH]; simpl.
  - destruct (String.eqb k k') eqn:E; [|done].
    apply String.eqb_eq in E. congruence.
  - destruct (String.eqb k0 k) eqn:E; simpl; [|by rewrite IH].
    apply String.eqb_eq in E. subst k0.
    destruct (String.eqb k k') eqn:E'; [|done].
    apply String.eqb_eq in E'. congruence.
Qed.

Lemma py_eq_str_true v s : py_eq_str v s = true ↔ v = JStr s.
Proof.
  destruct v; simpl; try (split; [done | by inversion 1]).
  rewrite String.eqb_eq. split; [by intros -> | by inversion 1].
Qed.

Lemma update_scan_no_match args now items :
  forallb (other_id (upd_id args)) items = true →
  update_scan args now items = Done None.
Proof.
  induction items as [|x items IH]; simpl; [done|].
  intros [Hx Hr]%andb_true_iff. unfold other_id in Hx.
  destruct (py_getitem x "id") as [v|]; [|done]. simpl.
  apply negb_true_iff in Hx. rewrite Hx, (IH Hr). done.
Qed.

Lemma update_scan_first_match args now pre kvs post :
  forallb (other_id (upd_id args)) pre = true →
  dict_get "id" kvs = Some (JStr (upd_id args)) →
  update_scan args now (pre ++ JObj kvs :: post) =
    kvs' ← update_fields args now kvs; Done (Some (pre ++ JObj kvs' :: post)).
Proof.
  intros Hpre Hid. induction pre as [|x pre IH]; simpl.
  - rewrite Hid. simpl. by rewrite String.eqb_refl.
  - simpl in Hpre. apply andb_true_iff in Hpre as [Hx Hr].
    unfold other_id in Hx.
    destruct (py_getitem x "id") as [v|]; [|done]. simpl.
    apply negb_true_iff in Hx. rewrite Hx, (IH Hr).
    by destruct (update_fields args now kvs).
Qed.

Lemma update_fields_invalid args now kvs :
  bad_choice (upd_status args) STATUSES ||
    bad_choice (upd_phase args) NIST_PHASES = true →
  update_fields args now kvs =
    Raised (SystemExit (if bad_choice (upd_status args) STATUSES
                        then invalid_status else invalid_phase_upd)).
Proof.
  unfold update_fields, bad_choice, set_status, set_phase, supplied.
  destruct (upd_status args) as [s|]; simpl.
  - destruct (String.eqb s ""); simpl.
    + destruct (upd_phase args) as [p|]; simpl; [|done].
      destruct (String.eqb p ""); simpl; [done|].
      by destruct (str_in (lower p) NIST_PHASES).
    + destruct (str_in (lower s) STATUSES); simpl; [|done].
      destruct (upd_phase args) as [p|]; simpl; [|done].
      destruct (String.eqb p ""); simpl; [done|].
      by destruct (str_in (lower p) NIST_PHASES).
  - destruct (upd_phase args) as [p|]; simpl; [|done].
    destruct (String.eqb p ""); simpl; [done|].
    by destruct (str_in (lower p) NIST_PHASES).
Qed.

(** The loop of [update_incident] finds a record only in a list: the
    items of a dictionary or of a string cannot be indexed by ["id"].
    This is why [update_incident] writes the list of items back. *)
Lemma update_scan_found_in_list args now v items items' :
  py_iter v = Done items →
  update_scan args now items = Done (Some items') →
  v = JArr items.
Proof.
  destruct v as [| | |s|xs|kvs]; simpl; try done.
  - intros [= <-]. by destruct (utf8_chars s).
  - by intros [= <-].
  - intros [= <-]. by destruct kvs.
Qed.

(** ** Updates that are refused *)

(** C1.  When a record with the given id exists and the supplied status or
    the supplied phase fails its vocabulary check, [update_incident] ends
    in [sys.exit] with the message of the first failing field, and the
    store file is exactly what it was: the status already written into the
    record in memory is not persisted. *)
Theorem update_incident_invalid_aborts args now f items pre kvs post :
  _load f = JArr items →
  first_match (upd_id args) items pre kvs post →
  bad_choice (upd_status args) STATUSES ||
    bad_choice (upd_phase args) NIST_PHASES = true →
  update_incident args now f =
    (Raised (SystemExit (if bad_choice (upd_status args) STATUSES
                         then invalid_status else invalid_phase_upd)), f).
Proof.
  intros Hload (-> & Hpre & Hid) Hbad.
  unfold update_incident. run_cmd. rewrite Hload. simpl.
  rewrite (update_scan_first_match _ _ _ _ _ Hpre Hid).
  by rewrite (update_fields_invalid _ _ _ Hbad).
Qed.

(** ** Updates of an unknown id *)

(** C5.  When every record of the store has an id other than the one
    asked for, [update_incident] reports that no incident was found and
    the store file is exactly what it was. *)
Theorem update_incident_not_found args now f items :
  _load f = JArr items →
  forallb (other_id (upd_id args)) items = true →
  update_incident args now f =
    (Done ["No incident with id " +:+ upd_id args +:+ " found."], f).
Proof.
  intros Hload Hall. unfold update_incident. run_cmd. rewrite Hload. simpl.
  by rewrite (update_scan_no_match _ _ _ Hall).
Qed.

(** ** Creation that is refused *)

(** C6.  When the lower-cased severity is not one of low, medium, high,
    critical, [add_incident] ends in [sys.exit] with a message that lists
    the four accepted values, and the store file is exactly what it was. *)
Theorem add_incident_invalid_severity args uuid now f :
  str_in (lower (add_severity args)) SEVERITIES = false →
  add_incident args uuid now f = (Raised (SystemExit invalid_severity), f) ∧
  invalid_severity =
    "Invalid severity. Use one of: low, medium, high, critical".
Proof.
  intros Hbad. split; [|reflexivity].
  unfold add_incident. run_cmd. by rewrite Hbad.
Qed.

(** ** Updates that change no field *)

Lemma set_status_skip arg kvs : supplied arg = false → set_status arg kvs = Done kvs.
Proof.
  unfold supplied, set_status. destruct arg as [s|]; [|done].
  by destruct (String.eqb s "").
Qed.

Lemma set_phase_skip arg kvs : supplied arg = false → set_phase arg kvs = Done kvs.
Proof.
  unfold supplied, set_phase. destruct arg as [s|]; [|done].
  by destruct (String.eqb s "").
Qed.

Lemma add_notes_to_skip arg kvs :
  supplied arg = false → add_notes_to arg kvs = Done kvs.
Proof.
  unfold supplied, add_notes_to. destruct arg as [s|]; [|done].
  by destruct (String.eqb s "").
Qed.

(** C10.  When a record with the given id exists and the call supplies no
    status, no phase and no notes (absent or the empty string) and no
    owner, [update_incident] succeeds: it writes the store back with
    ["updated_at"] of the first matching record set to the current time,
    every other entry of that record and every other record as they
    were. *)
Theorem update_incident_touch args now f items pre kvs post :
  _load f = JArr items →
  first_match (upd_id args) items pre kvs post →
  supplied (upd_status args) = false →
  supplied (upd_phase args) = false →
  upd_owner args = None →
  supplied (upd_notes args) = false →
  let kvs' := dict_set "updated_at" (JStr (now +:+ "Z")) kvs in
  update_incident args now f =
    (Done ["🛠️ Updated " +:+ upd_id args],
     Holding (JArr (pre ++ JObj kvs' :: post))) ∧
  dict_get "updated_at" kvs' = Some (JStr (now +:+ "Z")) ∧
  ∀ k, k ≠ "updated_at" → dict_get k kvs' = dict_get k kvs.
Proof.
  intros Hload (-> & Hpre & Hid) Hs Hp Ho Hn kvs'. split_and!.
  - unfold update_incident. run_cmd. rewrite Hload. simpl.
    rewrite (update_scan_first_match _ _ _ _ _ Hpre Hid).
    unfold update_fields.
    rewrite (set_status_skip _ _ Hs). simpl.
    rewrite (set_phase_skip _ _ Hp). simpl.
    rewrite Ho. simpl. rewrite (add_notes_to_skip _ _ Hn). done.
  - apply dict_get_set_eq.
  - intros k Hk. apply dict_get_set_ne. congruence.
Qed.

(** ** Notes are appended *)

Lemma eqb_empty_false s : s ≠ "" → String.eqb s "" = false.
Proof. intros H. by apply String.eqb_neq. Qed.

Lemma append_assoc (a b c : string) : (a +:+ b) +:+ c = a +:+ b +:+ c.
Proof.
  induction a as [|x a IH]; [done|].
  change (String x ((a +:+ b) +:+ c) = String x (a +:+ b +:+ c)).
  by rewrite IH.
Qed.

Lemma add_notes_to_joined s kvs old :
  s ≠ "" → notes_text kvs old →
  add_notes_to (Some s) kvs = Done (dict_set "notes" (JStr (joined old s)) kvs).
Proof.
  intros Hs Hold. unfold add_notes_to, joined.
  rewrite (eqb_empty_false _ Hs).
  destruct Hold as [Hold | [Hold ->]]; rewrite Hold; simpl; [|done].
  destruct (String.eqb old ""); simpl; [done|].
  by rewrite append_assoc.
Qed.

Lemma update_incident_note id s now f items pre kvs post old :
  _load f = JArr items →
  first_match id items pre kvs post →
  s ≠ "" → notes_text kvs old →
  let kvs' := dict_set "updated_at" (JStr (now +:+ "Z"))
                (dict_set "notes" (JStr (joined old s)) kvs) in
  update_incident (note_args id s) now f =
    (Done ["🛠️ Updated " +:+ id], Holding (JArr (pre ++ JObj kvs' :: post))).
Proof.
  intros Hload (-> & Hpre & Hid) Hs Hold kvs'.
  unfold update_incident. run_cmd. rewrite Hload. simpl.
  rewrite (update_scan_first_match (note_args id s) _ _ _ _ Hpre Hid).
  unfold update_fields, note_args.
  cbn [upd_status upd_phase upd_owner upd_notes set_status set_phase
       set_owner mbind result_bind].
  by rewrite (add_notes_to_joined _ _ _ Hs Hold).
Qed.

(** C3.  Two successive updates of the same record that supply only
    notes [a] and then [b], both non-empty, leave its notes as the old
    text, [a] and [b] joined by line feeds, with no separator after an
    empty old text; starting from empty notes the result is [a], a line
    feed, [b]. *)
Theorem update_incident_notes_append id a b now1 now2 f items pre kvs post old :
  _load f = JArr items →
  first_match id items pre kvs post →
  notes_text kvs old →
  a ≠ "" → b ≠ "" →
  ∃ kvs1 kvs2,
    update_incident (note_args id a) now1 f =
      (Done ["🛠️ Updated " +:+ id], Holding (JArr (pre ++ JObj kvs1 :: post))) ∧
    dict_get "notes" kvs1 = Some (JStr (joined old a)) ∧
    update_incident (note_args id b) now2
        (Holding (JArr (pre ++ JObj kvs1 :: post))) =
      (Done ["🛠️ Updated " +:+ id], Holding (JArr (pre ++ JObj kvs2 :: post))) ∧
    dict_get "notes" kvs2 = Some (JStr (joined (joined old a) b)) ∧
    (old = "" → dict_get "notes" kvs2 = Some (JStr (a +:+ nl +:+ b))).
Proof.
  intros Hload Hfm Hold Ha Hb.
  set (kvs1 := dict_set "updated_at" (JStr (now1 +:+ "Z"))
                 (dict_set "notes" (JStr (joined old a)) kvs)).
  set (kvs2 := dict_set "updated_at" (JStr (now2 +:+ "Z"))
                 (dict_set "notes" (JStr (joined (joined old a) b)) kvs1)).
  assert (Hn1 : dict_get "notes" kvs1 = Some (JStr (joined old a))).
  { unfold kvs1. rewrite dict_get_set_ne by done. apply dict_get_set_eq. }
  assert (Hn2 : dict_get "notes" kvs2 = Some (JStr (joined (joined old a) b))).
  { unfold kvs2. rewrite dict_get_set_ne by done. apply dict_get_set_eq. }
  exists kvs1, kvs2. split_and!; [| done | | done |].
  - by apply update_incident_note with (items := items).
  - destruct Hfm as (_ & Hpre & Hid).
    apply update_incident_note with (items := pre ++ JObj kvs1 :: post);
      [done | | done | by left].
    split_and!; [done | done |].
    unfold kvs1. by rewrite !dict_get_set_ne by done.
  - intros ->. rewrite Hn2. unfold joined at 1 2. simpl.
    by rewrite (eqb_empty_false _ Ha).
Qed.

(** ** Creation *)

(** C4, amended.  On a store that is a list, with severity and phase in
    their vocabularies after lower-casing, [add_incident] followed by
    [_load] yields the prior items and one more at the end: the record of
    the input with category, severity and phase lower-cased, status
    ["open"], no ["updated_at"], and as id the first eight characters of
    the draw.  That id differs from every prior id exactly when the draw
    is not in the store yet; the code does not compare them. *)
Theorem add_incident_then_load args uuid now f items :
  _load f = JArr items →
  str_in (lower (add_severity args)) SEVERITIES = true →
  str_in (lower (add_phase args)) NIST_PHASES = true →
  ∃ inc,
    add_incident args uuid now f =
      (Done ["✅ Added incident " +:+ prefix 8 uuid +:+ " — " +:+ add_title args],
       Holding (JArr (items ++ [JObj inc]))) ∧
    _load (snd (add_incident args uuid now f)) = JArr (items ++ [JObj inc]) ∧
    map fst inc = ["id"; "title"; "category"; "severity"; "phase"; "status";
                   "reported_at"; "owner"; "notes"] ∧
    dict_get "id" inc = Some (JStr (prefix 8 uuid)) ∧
    dict_get "title" inc = Some (JStr (add_title args)) ∧
    dict_get "category" inc = Some (JStr (lower (add_category args))) ∧
    dict_get "severity" inc = Some (JStr (lower (add_severity args))) ∧
    dict_get "phase" inc = Some (JStr (lower (add_phase args))) ∧
    dict_get "status" inc = Some (JStr "open") ∧
    dict_get "reported_at" inc = Some (JStr (now +:+ "Z")) ∧
    dict_get "owner" inc = Some (JStr (or_empty (add_owner args))) ∧
    dict_get "notes" inc = Some (JStr (or_empty (add_notes args))) ∧
    ((∀ x, x ∈ items → id_of x ≠ id_of (JObj inc)) ↔
     JStr (prefix 8 uuid) ∉ ids items).
Proof.
  intros Hload Hsev Hphase.
  assert (Hrun : add_incident args uuid now f =
      (Done ["✅ Added incident " +:+ prefix 8 uuid +:+ " — " +:+ add_title args],
       Holding (JArr (items ++ [JObj (new_incident args uuid now)])))).
  { unfold add_incident. run_cmd. by rewrite Hsev, Hphase, Hload. }
  exists (new_incident args uuid now).
  split_and!; try reflexivity; [done | by rewrite Hrun |].
  change (id_of (JObj (new_incident args uuid now)))
    with (Some (JStr (prefix 8 uuid))).
  unfold ids. rewrite list_elem_of_omap. split.
  - intros Hall (x & Hx & Hid). by apply (Hall x).
  - intros Hnot x Hx Hid. apply Hnot. by exists x.
Qed.

(** ** Loading *)

(** C2, amended.  [_load] returns the empty sequence instead of failing
    when there is no file and when the JSON decoder rejects the content
    with [JSONDecodeError]; content that decodes is returned as decoded,
    a sequence of records or not, without any check of its shape; and
    any other failure of the reading leaves [_load] as the exception it
    is.  So the empty sequence comes from a missing file, a rejected one
    or a stored empty sequence and from nothing else, and a value other
    than the empty sequence is returned exactly when it is what the file
    holds. *)
Theorem load_outcomes a :
  (load_any a = inr (JArr []) ↔
   a = Readable Missing ∨ a = Readable Undecodable ∨
   a = Readable (Holding (JArr []))) ∧
  (∀ v, v ≠ JArr [] → (load_any a = inr v ↔ a = Readable (Holding v))) ∧
  (∀ e, load_any a = inl e ↔ a = Unreadable e).
Proof.
  destruct a as [[| |w]|e']; cbn [load_any _load]; split_and!.
  - split; [by left | done].
  - intros v Hv. split; [intros [= <-]; by destruct Hv | done].
  - done.
  - split; [by right; left | done].
  - intros v Hv. split; [intros [= <-]; by destruct Hv | done].
  - done.
  - split; [intros [= ->]; by right; right | intros [[=] | [[=] | [= ->]]]; done].
  - intros v _. split; [by intros [= ->] | by intros [= ->]].
  - done.
  - split; [done | intros [[=] | [[=] | [=]]]].
  - done.
  - intros e. split; [by intros [= ->] | by intros [= ->]].
Qed.

(** ** Uniqueness of ids *)

Lemma set_status_keeps k arg kvs kvs' :
  k ≠ "status" → set_status arg kvs = Done kvs' →
  dict_get k kvs' = dict_get k kvs.
Proof.
  intros Hk. unfold set_status. destruct arg as [s|]; [|congruence].
  destruct (String.eqb s ""); [congruence|].
  destruct (negb _); [done|]. intros [= <-].
  apply dict_get_set_ne. congruence.
Qed.

Lemma set_phase_keeps k arg kvs kvs' :
  k ≠ "phase" → set_phase arg kvs = Done kvs' →
  dict_get k kvs' = dict_get k kvs.
Proof.
  intros Hk. unfold set_phase. destruct arg as [s|]; [|congruence].
  destruct (String.eqb s ""); [congruence|].
  destruct (negb _); [done|]. intros [= <-].
  apply dict_get_set_ne. congruence.
Qed.

Lemma set_owner_keeps k arg kvs :
  k ≠ "owner" → dict_get k (set_owner arg kvs) = dict_get k kvs.
Proof.
  intros Hk. unfold set_owner. destruct arg as [s|]; [|done].
  apply dict_get_set_ne. congruence.
Qed.

Lemma add_notes_to_keeps k arg kvs kvs' :
  k ≠ "notes" → add_notes_to arg kvs = Done kvs' →
  dict_get k kvs' = dict_get k kvs.
Proof.
  intros Hk. unfold add_notes_to. destruct arg as [s|]; [|congruence].
  destruct (String.eqb s ""); [congruence|].
  destruct (if py_bool _ then _ else _) as [h|]; simpl; [|done].
  intros [= <-]. apply dict_get_set_ne. congruence.
Qed.

(** [update_fields] writes the five entries it names and no other. *)
Lemma update_fields_keeps k args now kvs kvs' :
  k ∉ ["status"; "phase"; "owner"; "notes"; "updated_at"] →
  update_fields args now kvs = Done kvs' →
  dict_get k kvs' = dict_get k kvs.
Proof.
  intros Hk. rewrite !not_elem_of_cons in Hk.
  destruct Hk as (Hs & Hp & Ho & Hn & Hu & _).
  unfold update_fields.
  destruct (set_status _ kvs) as [k1|] eqn:H1; simpl; [|done].
  destruct (set_phase _ k1) as [k2|] eqn:H2; simpl; [|done].
  destruct (add_notes_to _ _) as [k3|] eqn:H3; simpl; [|done].
  intros [= <-].
  rewrite dict_get_set_ne by congruence.
  rewrite (add_notes_to_keeps k _ _ _ Hn H3).
  rewrite set_owner_keeps by done.
  rewrite (set_phase_keeps k _ _ _ Hp H2).
  apply (set_status_keeps k _ _ _ Hs H1).
Qed.

Lemma id_is_kept : "id" ∉ ["status"; "phase"; "owner"; "notes"; "updated_at"].
Proof. rewrite !not_elem_of_cons. split_and!; try done. apply not_elem_of_nil. Qed.

Lemma ids_cons x l :
  ids (x :: l) = match id_of x with Some i => i :: ids l | None => ids l end.
Proof. reflexivity. Qed.

Lemma update_scan_ids args now items items' :
  update_scan args now items = Done (Some items') → ids items' = ids items.
Proof.
  revert items'. induction items as [|x items IH]; intros items'; simpl; [done|].
  destruct (py_getitem x "id") as [i|] eqn:Hi; simpl; [|done].
  destruct (py_eq_str i (upd_id args)).
  - destruct x as [| | | | |kvs]; try done.
    destruct (update_fields args now kvs) as [kvs'|] eqn:Hf; simpl; [|done].
    intros [= <-]. rewrite !ids_cons. simpl.
    by rewrite (update_fields_keeps "id" _ _ _ _ id_is_kept Hf).
  - destruct (update_scan args now items) as [[r|]|]; simpl; try done.
    intros [= <-]. rewrite !ids_cons. by rewrite (IH r).
Qed.

(** The items of a loop over a dictionary or over a string are strings,
    which carry no id. *)
Lemma ids_of_strings {A} (g : A → string) (l : list A) :
  ids (map (fun a => JStr (g a)) l) = [].
Proof. induction l as [|a l IH]; [done|]. cbn [map]. rewrite ids_cons. exact IH. Qed.

Lemma py_iter_ids v items :
  py_iter v = Done items → ids items = match v with JArr xs => ids xs | _ => [] end.
Proof.
  destruct v as [| | |s|xs|kvs]; simpl; try done.
  - intros [= <-]. apply (ids_of_strings id).
  - by intros [= <-].
  - intros [= <-]. apply (ids_of_strings fst).
Qed.

Lemma list_incidents_reads args f : snd (list_incidents args f) = f.
Proof.
  unfold list_incidents. run_cmd.
  destruct (py_iter (_load f)) as [items|]; simpl; [|done].
  by destruct (filter_loop args items).
Qed.

Lemma stats_reads f : snd (stats f) = f.
Proof.
  unfold stats. run_cmd. destruct (negb _); [done|].
  destruct (py_iter (_load f)) as [items|]; simpl; [|done].
  by repeat case_match.
Qed.

(** Every invocation keeps the ids unique, given the two conditions the
    code leaves to its environment. *)
Lemma run_keeps_unique_ids o f :
  unique_ids f → guarded o f → unique_ids (run o f).
Proof.
  intros Hf Hg. destruct o as [force|args uuid now|args|args now| |sample]; simpl.
  - unfold init_store. run_cmd. destruct (_ && _); simpl; [done|].
    apply NoDup_nil_2.
  - simpl in Hg. unfold add_incident. run_cmd.
    destruct (negb _); [done|]. destruct (negb _); [done|].
    unfold unique_ids, stored_ids in *.
    destruct (_load f) as [| | | |items|] eqn:Hl; simpl; rewrite ?Hl; try done.
    unfold ids in *. rewrite omap_app.
    apply NoDup_app. split_and!; [done | | apply NoDup_singleton].
    intros x Hx ->%list_elem_of_singleton. done.
  - by rewrite list_incidents_reads.
  - unfold update_incident. run_cmd.
    destruct (py_iter (_load f)) as [items|] eqn:Hit; simpl; [|done].
    destruct (update_scan args now items) as [[items'|]|] eqn:Hs; simpl;
      [|done|done].
    unfold unique_ids, stored_ids in *. cbn [_load].
    rewrite (update_scan_ids _ _ _ _ Hs), (py_iter_ids _ _ Hit).
    destruct (_load f); try apply NoDup_nil_2. done.
  - by rewrite stats_reads.
  - simpl in Hg. destruct sample as [| |v]; simpl; [done|done|].
    unfold seed. run_cmd. by destruct (py_len v).
Qed.

(** C9, amended.  Starting without a file, every store reached by
    invocations in which each new incident draws an id not yet in the
    store, and each seeded sample has unique ids itself, has unique ids:
    [init], [list], [update] and [stats] keep them unique without any
    condition, [add] and [seed] under the one named for them, which the
    code does not check. *)
Theorem unique_ids_invariant f : reachable_guarded f → unique_ids f.
Proof.
  induction 1 as [|o f _ IH Hg].
  - apply NoDup_nil_2.
  - by apply run_keeps_unique_ids.
Qed.

(** ** Listing *)

Lemma field_differs_listable k arg kvs :
  is_Some (dict_get k kvs) →
  field_differs (JObj kvs) k arg = Done (negb (field_is k arg (JObj kvs))).
Proof.
  intros [v Hv]. unfold field_differs, field_is, supplied.
  destruct arg as [s|]; [|done].
  destruct (String.eqb s ""); [done|]. simpl. by rewrite Hv.
Qed.

Lemma owner_differs_listable arg kvs :
  match dict_get "owner" kvs with
  | Some (JStr _) | None => true
  | Some _ => false
  end = true →
  owner_differs (JObj kvs) arg = Done (negb (owner_is arg (JObj kvs))).
Proof.
  intros Ho. unfold owner_differs, owner_is, supplied.
  destruct arg as [s|]; [|done].
  destruct (String.eqb s ""); [done|]. simpl.
  destruct (dict_get "owner" kvs) as [[]|]; done.
Qed.

Lemma filter_loop_filter args items :
  forallb is_listable items = true →
  filter_loop args items = Done (List.filter (keeps args) items).
Proof.
  induction items as [|x items IH]; [done|].
  intros [Hx Hr]%andb_true_iff. specialize (IH Hr).
  destruct x as [| | | | |kvs]; try done.
  unfold is_listable in Hx.
  apply andb_true_iff in Hx as [[[Hsev Hph]%andb_true_iff Hst]%andb_true_iff Hown].
  apply bool_decide_eq_true in Hsev, Hph, Hst.
  cbn [filter_loop List.filter]. unfold keeps.
  rewrite (field_differs_listable "severity" _ _ Hsev).
  rewrite (field_differs_listable "phase" _ _ Hph).
  rewrite (field_differs_listable "status" _ _ Hst).
  rewrite (owner_differs_listable _ _ Hown).
  cbn [mbind result_bind].
  destruct (field_is "severity" _ _); cbn [negb andb]; [|done].
  destruct (field_is "phase" _ _); cbn [negb andb]; [|done].
  destruct (field_is "status" _ _); cbn [negb andb]; [|done].
  destruct (owner_is _ _); cbn [negb andb]; [|done].
  by rewrite IH.
Qed.

Lemma field_is_ci_normalised k arg x :
  stored_lower k x = true → field_is k arg x = field_is_ci k arg x.
Proof.
  unfold stored_lower, field_is, field_is_ci.
  destruct x as [| | | | |kvs]; try done.
  destruct (dict_get k kvs) as [[| | |s| |]|]; try done.
  intros Hs%String.eqb_eq. simpl. by rewrite Hs.
Qed.

Lemma keeps_normalised args x :
  is_normalised x = true → keeps args x = matches_ci args x.
Proof.
  unfold is_normalised.
  intros [[Hsev Hph]%andb_true_iff Hst]%andb_true_iff.
  unfold keeps, matches_ci.
  by rewrite !field_is_ci_normalised.
Qed.

Lemma filter_twice {A} (p q : A → bool) (l : list A) :
  List.filter p (List.filter q l) = List.filter (fun x => p x && q x) l.
Proof.
  induction l as [|x l IH]; [done|]. simpl.
  destruct (q x); simpl; rewrite ?andb_true_r, ?andb_false_r.
  - destruct (p x); by rewrite IH.
  - exact IH.
Qed.

Lemma forallb_of_filter {A} (p q : A → bool) (l : list A) :
  forallb p l = true → forallb p (List.filter q l) = true.
Proof.
  induction l as [|x l IH]; [done|]. simpl.
  intros [Hx Hl]%andb_true_iff.
  destruct (q x); simpl; [rewrite Hx|]; by apply IH.
Qed.

(** Successive runs of the loop keep what every one of them keeps. *)
Lemma filter_chain_filter ps items :
  forallb is_listable items = true →
  filter_chain ps items =
    Done (List.filter (fun x => forallb (fun p => keeps p x) ps) items).
Proof.
  intros Hl. induction ps as [|p ps IH].
  - change (filter_chain [] items) with (Done items).
    f_equal. symmetry. by apply forallb_filter_id, forallb_forall.
  - change (filter_chain (p :: ps) items)
      with (l ← filter_chain ps items; filter_loop p l).
    rewrite IH. cbn [mbind result_bind].
    rewrite filter_loop_filter by by apply forallb_of_filter.
    by rewrite filter_twice.
Qed.

Lemma forallb_Permutation {A} (p : A → bool) (l1 l2 : list A) :
  l1 ≡ₚ l2 → forallb p l1 = forallb p l2.
Proof.
  induction 1 as [|x l1 l2 _ IH|x y l|l1 l2 l3 _ IH1 _ IH2]; simpl.
  - done.
  - by rewrite IH.
  - by rewrite !andb_assoc, (andb_comm (p y)).
  - by rewrite IH1.
Qed.

Lemma keeps_single_filters args x :
  forallb (fun p => keeps p x) (single_filters args) = keeps args x.
Proof.
  unfold single_filters, keeps, field_is, owner_is. simpl.
  by rewrite !andb_true_r, !andb_assoc.
Qed.

Lemma print_row_printable x :
  is_printable x = true → print_row x = Done (row_of x).
Proof.
  destruct x as [| | | | |kvs]; try done. unfold is_printable.
  intros [[[[Hi Hs]%andb_true_iff Hp]%andb_true_iff Hst]%andb_true_iff Ht]%andb_true_iff.
  apply bool_decide_eq_true in Hi as [i Hi], Hp as [p Hp], Hst as [st Hst],
    Ht as [t Ht].
  destruct (dict_get "severity" kvs) as [[| | |s| |]|] eqn:Hsev; try done.
  unfold print_row, row_of, py_getitem, py_get, entry.
  rewrite Hi, Hsev, Hp, Hst, Ht. reflexivity.
Qed.

Lemma print_rows_printable items :
  forallb is_printable items = true → print_rows items = (map row_of items, None).
Proof.
  induction items as [|x items IH]; [done|].
  intros [Hx Hr]%andb_true_iff. cbn [print_rows map].
  by rewrite (print_row_printable x Hx), (IH Hr).
Qed.

(** What is printed for a list of records that [list_incidents] kept. *)
Lemma list_incidents_printed_report args f kept :
  fst (list_incidents args f) = Done kept →
  forallb is_printable kept = true →
  list_incidents_printed args f = (report kept, None).
Proof.
  intros Hkept Hp. unfold list_incidents_printed. rewrite Hkept.
  destruct kept as [|x kept]; [done|].
  by rewrite (print_rows_printable _ Hp).
Qed.

(** C7, amended.  On records that are dictionaries with an id, a title,
    a severity that is a string, a phase and a status, and with a string,
    if anything, as owner, [list_incidents] keeps, in store order,
    exactly the records for which every supplied predicate holds, and
    prints one line for each of them, or that no incidents were found.
    A predicate on severity, phase or status holds when the stored value
    equals the lower-cased argument; the predicate on the owner holds
    when the owner, read as empty when absent, equals the argument with
    both sides lower-cased; a predicate that is absent or empty
    constrains nothing.  When the stored severity, phase and status are
    in lower case, as [add] and [update] write them, these are the
    records that match ignoring case.  Running the four predicates one
    after the other in any order keeps the same list. *)
Theorem list_incidents_filter args f items :
  _load f = JArr items →
  forallb is_listable items = true →
  forallb is_printable items = true →
  list_incidents args f = (Done (List.filter (keeps args) items), f) ∧
  list_incidents_printed args f =
    (report (List.filter (keeps args) items), None) ∧
  (forallb is_normalised items = true →
   List.filter (keeps args) items = List.filter (matches_ci args) items) ∧
  (∀ ps, ps ≡ₚ single_filters args →
     filter_chain ps items = Done (List.filter (keeps args) items)).
Proof.
  intros Hload Hl Hp.
  assert (Hrun : list_incidents args f =
                 (Done (List.filter (keeps args) items), f)).
  { unfold list_incidents. run_cmd. rewrite Hload. simpl.
    by rewrite filter_loop_filter. }
  split_and!.
  - done.
  - apply list_incidents_printed_report; [by rewrite Hrun|].
    by apply forallb_of_filter.
  - intros Hn. apply List.filter_ext_in. intros x Hx.
    apply keeps_normalised.
    by apply (proj1 (forallb_forall _ _) Hn).
  - intros ps Hps. rewrite filter_chain_filter by done. f_equal.
    apply List.filter_ext. intros x.
    by rewrite (forallb_Permutation _ _ _ Hps), keeps_single_filters.
Qed.

(** ** Counting *)

Lemma is_text_spec v : is_text v = true ↔ ∃ s, v = JStr s.
Proof.
  destruct v; simpl; split; try done; try by intros [? [=]].
  by eexists.
Qed.

Lemma py_key_eq_text a b :
  is_text a = true → is_text b = true → (py_key_eq a b = true ↔ a = b).
Proof.
  intros [s ->]%is_text_spec [t ->]%is_text_spec. simpl.
  rewrite String.eqb_eq. split; [by intros -> | by intros [=]].
Qed.

Lemma py_key_eq_refl a : is_text a = true → py_key_eq a a = true.
Proof. intros Ha. by apply py_key_eq_text. Qed.

Lemma py_key_eq_ne a b :
  is_text a = true → is_text b = true → a ≠ b → py_key_eq a b = false.
Proof.
  intros Ha Hb Hne. apply not_true_is_false.
  by rewrite py_key_eq_text.
Qed.

Lemma text_eq_dec a b :
  is_text a = true → is_text b = true → a = b ∨ a ≠ b.
Proof.
  intros Ha Hb. destruct (py_key_eq a b) eqn:E.
  - left. by apply py_key_eq_text.
  - right. intros Heq. apply (py_key_eq_text a b Ha Hb) in Heq. congruence.
Qed.

Lemma text_elem_dec x (l : list json) :
  is_text x = true → forallb is_text l = true → x ∈ l ∨ x ∉ l.
Proof.
  intros Hx. induction l as [|y l IH]; simpl.
  - intros _. right. apply not_elem_of_nil.
  - intros [Hy Hl]%andb_true_iff.
    destruct (text_eq_dec x y Hx Hy) as [->|Hne]; [left; by left|].
    destruct (IH Hl) as [Hin|Hnot]; [left; by right|].
    right. by apply not_elem_of_cons.
Qed.

(** A key that is present keeps its place and gains one. *)
Lemma counter_add_present k (c : counter) :
  is_text k = true → forallb is_text (keys c) = true → k ∈ keys c →
  ∃ c1 n c2, c = c1 ++ (k, n) :: c2 ∧ (k ∉ keys c1) ∧
             counter_add k c = c1 ++ (k, S n) :: c2.
Proof.
  intros Hk. induction c as [|[k' n] c IH]; simpl.
  - intros _ Hin. by apply elem_of_nil in Hin.
  - intros [Hk' Hc]%andb_true_iff Hin.
    destruct (text_eq_dec k' k Hk' Hk) as [->|Hne].
    + exists [], n, c. rewrite py_key_eq_refl by done.
      split_and!; [done | apply not_elem_of_nil | done].
    + rewrite py_key_eq_ne by done.
      apply elem_of_cons in Hin as [Heq|Hin]; [congruence|].
      destruct (IH Hc Hin) as (c1 & m & c2 & -> & Hnot & ->).
      exists ((k', n) :: c1), m, c2. split_and!; [done | | done].
      simpl. apply not_elem_of_cons. split; [congruence | done].
Qed.

(** A new key goes last with count one. *)
Lemma counter_add_absent k (c : counter) :
  is_text k = true → forallb is_text (keys c) = true → k ∉ keys c →
  counter_add k c = c ++ [(k, 1)].
Proof.
  intros Hk. induction c as [|[k' n] c IH]; simpl; [done|].
  intros [Hk' Hc]%andb_true_iff [Hne Hnot]%not_elem_of_cons.
  rewrite py_key_eq_ne by done. by rewrite IH.
Qed.

Lemma occurrences_snoc v vs x :
  occurrences v (vs ++ [x]) =
    occurrences v vs + (if py_key_eq v x then 1 else 0).
Proof.
  unfold occurrences. rewrite List.filter_app, length_app. simpl.
  by destruct (py_key_eq v x).
Qed.

Lemma total_app c1 c2 : total (c1 ++ c2) = total c1 + total c2.
Proof. unfold total. induction c1 as [|[k n] c1 IH]; simpl; [done|]. lia. Qed.

Lemma forallb_text_elem v vs :
  forallb is_text vs = true → v ∈ vs → is_text v = true.
Proof.
  intros Hall Hv. apply (proj1 (forallb_forall _ _) Hall).
  by apply list_elem_of_In.
Qed.

(** One more value counted. *)
Lemma counts_of_add c vs x :
  is_text x = true → forallb is_text (keys c) = true →
  counts_of c vs →
  counts_of (counter_add x c) (vs ++ [x]) ∧
  forallb is_text (keys (counter_add x c)) = true.
Proof.
  intros Hx Hc (Hnd & Hkeys & Hocc & Htot).
  destruct (text_elem_dec x (keys c) Hx Hc) as [Hin|Hnot].
  - destruct (counter_add_present x c Hx Hc Hin) as (c1 & n & c2 & -> & Hx1 & ->).
    assert (Hsame : keys (c1 ++ (x, S n) :: c2) = keys (c1 ++ (x, n) :: c2)).
    { unfold keys. by rewrite !map_app. }
    unfold counts_of. rewrite !Hsame. split; [|done]. split_and!.
    + done.
    + intros v. rewrite Hkeys, elem_of_app, list_elem_of_singleton.
      split; [by left|]. intros [Hv| ->]; [done|]. by apply Hkeys.
    + intros v m Hvm. rewrite occurrences_snoc.
      apply elem_of_app in Hvm as [Hvm|Hvm];
        [|apply elem_of_cons in Hvm as [[= -> ->]|Hvm]].
      * destruct (Hocc v m) as [-> Hpos].
        { apply elem_of_app. by left. }
        assert (v ≠ x).
        { intros ->. apply Hx1. unfold keys.
          apply (list_elem_of_fmap_2 fst _ _ Hvm). }
        rewrite py_key_eq_ne; [lia| |done|done].
        apply (forallb_text_elem _ _ Hc), Hkeys, Hkeys.
        unfold keys. rewrite map_app. apply elem_of_app. left.
        apply (list_elem_of_fmap_2 fst _ _ Hvm).
      * destruct (Hocc x n) as [-> Hpos].
        { apply elem_of_app. right. by left. }
        rewrite py_key_eq_refl by done. lia.
      * destruct (Hocc v m) as [-> Hpos].
        { apply elem_of_app. right. by right. }
        assert (v ≠ x).
        { intros ->. unfold keys in Hnd. rewrite map_app in Hnd. simpl in Hnd.
          apply NoDup_app in Hnd as (_ & _ & Hnd).
          apply NoDup_cons in Hnd as [Hnd _]. apply Hnd.
          apply (list_elem_of_fmap_2 fst _ _ Hvm). }
        rewrite py_key_eq_ne; [lia| |done|done].
        apply (forallb_text_elem _ _ Hc).
        unfold keys. rewrite map_app. apply elem_of_app. right. right.
        apply (list_elem_of_fmap_2 fst _ _ Hvm).
    + rewrite !total_app in *. unfold total in *. simpl in *.
      rewrite length_app. simpl. lia.
  - rewrite (counter_add_absent x c Hx Hc Hnot).
    assert (Hk : keys (c ++ [(x, 1)]) = keys c ++ [x]).
    { unfold keys. by rewrite map_app. }
    unfold counts_of. rewrite !Hk. split.
    + split_and!.
      * apply NoDup_app. split_and!; [done | | apply NoDup_singleton].
        intros v Hv ->%list_elem_of_singleton. done.
      * intros v. rewrite !elem_of_app, !list_elem_of_singleton.
        by rewrite Hkeys.
      * intros v m Hvm. rewrite occurrences_snoc.
        apply elem_of_app in Hvm as [Hvm|[= -> ->]%list_elem_of_singleton].
        -- destruct (Hocc v m Hvm) as [-> Hpos].
           assert (Hvk : v ∈ keys c)
             by apply (list_elem_of_fmap_2 fst _ _ Hvm).
           rewrite py_key_eq_ne; [lia| |done|by intros ->].
           by apply (forallb_text_elem _ _ Hc).
        -- rewrite py_key_eq_refl by done.
           assert (occurrences x vs = 0) as ->; [|lia].
           unfold occurrences.
           destruct (List.filter (py_key_eq x) vs) as [|y l] eqn:Hf; [done|].
           assert (Hy : In y (List.filter (py_key_eq x) vs))
             by (rewrite Hf; by left).
           apply List.filter_In in Hy as [Hy Heq].
           exfalso. apply Hnot, Hkeys.
           apply list_elem_of_In in Hy.
           assert (is_text y = true).
           { apply (forallb_text_elem _ _ Hc), Hkeys, Hy. }
           apply py_key_eq_text in Heq; [|done|done]. by subst.
      * rewrite total_app, length_app. unfold total in *. simpl. lia.
    + rewrite forallb_app, Hc. simpl. by rewrite Hx.
Qed.

Lemma count_into_counts xs : ∀ c seen,
  forallb is_text xs = true → forallb is_text (keys c) = true →
  counts_of c seen →
  ∃ c', count_into c xs = Done c' ∧ counts_of c' (seen ++ xs).
Proof.
  induction xs as [|x xs IH]; intros c seen Hxs Hc Hcounts; simpl.
  - exists c. by rewrite app_nil_r.
  - simpl in Hxs. apply andb_true_iff in Hxs as [Hx Hxs].
    assert (hashable x = true) as -> by by destruct x.
    destruct (counts_of_add c seen x Hx Hc Hcounts) as [Hcounts' Hc'].
    destruct (IH _ _ Hxs Hc' Hcounts') as (c' & Hrun & Hres).
    exists c'. split; [done|]. by rewrite <- app_assoc in Hres.
Qed.

(** [Counter] on strings never fails and counts them. *)
Lemma Counter_counts vs :
  forallb is_text vs = true → ∃ c, Counter vs = Done c ∧ counts_of c vs.
Proof.
  intros Hvs. apply (count_into_counts vs [] [] Hvs eq_refl).
  split_and!; [apply NoDup_nil_2 | done | | done].
  intros v n Hin. by apply elem_of_nil in Hin.
Qed.

Lemma column_text k items :
  forallb (has_text k) items = true →
  ∃ vs, column k items = Done vs ∧ length vs = length items ∧
        forallb is_text vs = true.
Proof.
  induction items as [|x items IH]; simpl.
  - intros _. by exists [].
  - intros [Hx Hr]%andb_true_iff.
    destruct (IH Hr) as (vs & Hcol & Hlen & Htext).
    destruct x as [| | | | |kvs]; try done. simpl in Hx.
    destruct (dict_get k kvs) as [v|] eqn:Hv; [|done]. simpl in Hx.
    exists (v :: vs). unfold column in *. cbn [mapM py_getitem].
    rewrite Hv. cbn [mbind result_bind]. rewrite Hcol. simpl.
    split_and!; [done | by rewrite Hlen | by rewrite Hx].
Qed.

Lemma is_countable_columns items :
  forallb is_countable items = true →
  forallb (has_text "severity") items = true ∧
  forallb (has_text "phase") items = true ∧
  forallb (has_text "status") items = true.
Proof.
  induction items as [|x items IH]; [done|]. simpl.
  intros [Hx Hr]%andb_true_iff. destruct (IH Hr) as (-> & -> & ->).
  unfold is_countable in Hx.
  apply andb_true_iff in Hx as [[-> ->]%andb_true_iff ->]. done.
Qed.

(** C8, amended.  On a store that is not empty and whose records have
    strings as severity, phase and status, [stats] builds three counters,
    over the severities, the phases and the statuses of the records.  In
    each the keys are the distinct values observed, every key carries the
    number of records with that value, which is at least one, and the
    counts add up to the number of records.  On the empty store it
    reports that there are no incidents and builds none. *)
Theorem stats_counts f items :
  _load f = JArr items →
  items ≠ [] →
  forallb is_countable items = true →
  ∃ sevs phases statuses by_sev by_phase by_status,
    column "severity" items = Done sevs ∧
    column "phase" items = Done phases ∧
    column "status" items = Done statuses ∧
    stats f = (Done (Counts by_sev by_phase by_status), f) ∧
    counts_of by_sev sevs ∧ total by_sev = length items ∧
    counts_of by_phase phases ∧ total by_phase = length items ∧
    counts_of by_status statuses ∧ total by_status = length items.
Proof.
  intros Hload Hne Hall.
  destruct (is_countable_columns _ Hall) as (Hs & Hp & Ht).
  destruct (column_text _ _ Hs) as (sevs & Hcs & Hls & Hts).
  destruct (column_text _ _ Hp) as (phases & Hcp & Hlp & Htp).
  destruct (column_text _ _ Ht) as (statuses & Hct & Hlt & Htt).
  destruct (Counter_counts _ Hts) as (by_sev & Hrs & Hos).
  destruct (Counter_counts _ Htp) as (by_phase & Hrp & Hop).
  destruct (Counter_counts _ Htt) as (by_status & Hrt & Hot).
  exists sevs, phases, statuses, by_sev, by_phase, by_status.
  split_and!; try done.
  - unfold stats. run_cmd. rewrite Hload.
    destruct items as [|x items]; [done|]. cbn [py_bool negb py_iter].
    rewrite Hcs, Hcp, Hct. cbn [result_bind]. by rewrite Hrs, Hrp, Hrt.
  - destruct Hos as (_ & _ & _ & ->). done.
  - destruct Hop as (_ & _ & _ & ->). done.
  - destruct Hot as (_ & _ & _ & ->). done.
Qed.

(** * Further properties *)

(** ** [init_store] *)

(** X1.  Without [--force], [init_store] leaves a file that exists as it
    is, whether it decodes or not, and reports the conflict. *)
Theorem init_store_keeps_existing f :
  f ≠ Missing →
  init_store false f =
    (Done ["incidents.json already exists. Use --force to overwrite."], f).
Proof. intros Hf. by destruct f. Qed.

(** X2.  With [--force], or when there is no file, [init_store] leaves an
    empty store whatever was there: after it every listing is empty,
    [stats] reports no incidents, every update finds nothing and an
    export writes no file. *)
Theorem init_store_resets force f :
  force = true ∨ f = Missing →
  init_store force f =
    (Done ["Initialized empty store at incidents.json"], Holding (JArr [])) ∧
  (∀ args, fst (list_incidents args (snd (init_store force f))) = Done []) ∧
  fst (stats (snd (init_store force f))) = Done NoIncidents ∧
  (∀ args now,
     fst (update_incident args now (snd (init_store force f))) =
       Done ["No incident with id " +:+ upd_id args +:+ " found."]) ∧
  (∀ output,
     export_csv output (snd (init_store force f)) =
       (None, inr ["No data to export."])).
Proof.
  intros Hreset.
  assert (Hrun : init_store force f =
    (Done ["Initialized empty store at incidents.json"], Holding (JArr []))).
  { destruct Hreset as [-> | ->]; [by destruct f | by destruct force]. }
  rewrite Hrun. done.
Qed.

(** ** [seed] *)

(** X3.  [seed] with a sample that has a length replaces the store by the
    sample, whatever the store held, and reports that length. *)
Theorem seed_replaces v n f :
  py_len v = Done n →
  seed (Holding v) f =
    (Done ["🌱 Seeded " +:+ pretty n +:+ " incidents into incidents.json"],
     Holding v).
Proof. intros Hn. unfold seed. run_cmd. by rewrite Hn. Qed.

(** X4.  [seed] writes before it measures: a sample that is valid JSON
    without a length (null, a boolean, a number) ends in [TypeError], and
    the store has been replaced by it all the same. *)
Theorem seed_writes_before_failing v e f :
  py_len v = Raised e →
  seed (Holding v) f = (Raised TypeError, Holding v).
Proof.
  intros Hn.
  assert (e = TypeError) as -> by (destruct v; simpl in Hn; congruence).
  unfold seed. run_cmd. by rewrite Hn.
Qed.

(** [seed] leaves the store as it is when there is no sample file, which
    it reports, and when the sample is not valid JSON, where the
    [JSONDecodeError] of the unguarded [json.load] ends the command. *)
Lemma seed_without_sample f :
  seed Missing f = (Done ["sample_data.json not found."], f) ∧
  seed Undecodable f = (Raised JSONDecodeError, f).
Proof. done. Qed.

(** ** [add_incident] *)

(** X5.  With a severity of the vocabulary and a phase outside it, after
    lower-casing, [add_incident] ends in [sys.exit] with a message that
    lists the five phases, and the store file is as it was. *)
Theorem add_incident_invalid_phase args uuid now f :
  str_in (lower (add_severity args)) SEVERITIES = true →
  str_in (lower (add_phase args)) NIST_PHASES = false →
  add_incident args uuid now f = (Raised (SystemExit invalid_phase_add), f) ∧
  invalid_phase_add =
    "Invalid phase. Use one of: identify, protect, detect, respond, recover".
Proof.
  intros Hsev Hphase. split; [|reflexivity].
  unfold add_incident. run_cmd. by rewrite Hsev, Hphase.
Qed.

(** X6.  On a store that decodes to something other than a list, a valid
    [add_incident] ends in [AttributeError], since only a list has
    [append], and the store file is as it was. *)
Theorem add_incident_needs_list args uuid now f :
  str_in (lower (add_severity args)) SEVERITIES = true →
  str_in (lower (add_phase args)) NIST_PHASES = true →
  (∀ items, _load f ≠ JArr items) →
  add_incident args uuid now f = (Raised AttributeError, f).
Proof.
  intros Hsev Hphase Hshape. unfold add_incident. run_cmd.
  rewrite Hsev, Hphase. simpl.
  destruct (_load f) as [| | | |items|]; try done.
  by destruct (Hshape items).
Qed.

(** X7.  On a file that the JSON decoder rejects, as on a missing one, a
    valid [add_incident] succeeds and leaves a store that holds the new
    record alone: what the file held before is overwritten. *)
Theorem add_incident_overwrites_corrupt args uuid now f :
  f = Missing ∨ f = Undecodable →
  str_in (lower (add_severity args)) SEVERITIES = true →
  str_in (lower (add_phase args)) NIST_PHASES = true →
  snd (add_incident args uuid now f) =
    Holding (JArr [JObj (new_incident args uuid now)]).
Proof.
  intros Hf Hsev Hphase. unfold add_incident. run_cmd.
  rewrite Hsev, Hphase. by destruct Hf as [-> | ->].
Qed.

(** ** Stores built by the tool itself *)

Lemma meets_dict_set reqs k v kvs :
  meets reqs kvs = true →
  (∀ P, (k, P) ∈ reqs → P v = true) →
  meets reqs (dict_set k v kvs) = true.
Proof.
  unfold meets. induction reqs as [|[k0 P0] reqs IH]; simpl; [done|].
  intros [H0 Hr]%andb_true_iff Hv. apply andb_true_iff. split.
  - destruct (decide (k = k0)) as [<-|Hne].
    + rewrite dict_get_set_eq. simpl. apply Hv. by left.
    + by rewrite dict_get_set_ne.
  - apply IH; [done|]. intros P HP. apply Hv. by right.
Qed.

Lemma columns_dict_set k v (kvs : dict) :
  str_in k fieldnames = true →
  forallb (fun kv => str_in (fst kv) fieldnames) kvs = true →
  forallb (fun kv => str_in (fst kv) fieldnames) (dict_set k v kvs) = true.
Proof.
  intros Hk. induction kvs as [|[k' v'] kvs IH]; simpl.
  - by rewrite Hk.
  - intros [Hk' Hr]%andb_true_iff.
    destruct (String.eqb k' k); simpl; rewrite Hk'; simpl; [done | by apply IH].
Qed.

Lemma dict_set_incident k v kvs :
  is_incident (JObj kvs) = true →
  str_in k fieldnames = true →
  (∀ P, (k, P) ∈ requirements → P v = true) →
  is_incident (JObj (dict_set k v kvs)) = true.
Proof.
  unfold is_incident. intros [Hm Hc]%andb_true_iff Hk Hv.
  apply andb_true_iff. split.
  - by apply meets_dict_set.
  - by apply columns_dict_set.
Qed.

(** Settles what the requirements ask of a value written under a literal
    key. *)
Ltac by_requirement :=
  let P := fresh "P" in
  let HP := fresh "HP" in
  intros P HP; unfold requirements in HP;
  repeat (apply elem_of_cons in HP as [HP|HP];
          [simplify_eq; first [done | assumption | reflexivity]|]);
  by apply elem_of_nil in HP.

Lemma set_status_incident arg kvs kvs' :
  is_incident (JObj kvs) = true → set_status arg kvs = Done kvs' →
  is_incident (JObj kvs') = true.
Proof.
  intros Hi. unfold set_status. destruct arg as [s|]; [|congruence].
  destruct (String.eqb s ""); [congruence|].
  destruct (str_in (lower s) STATUSES) eqn:Hs; simpl; [|done].
  intros [= <-]. apply dict_set_incident; [done | done |]. by_requirement.
Qed.

Lemma set_phase_incident arg kvs kvs' :
  is_incident (JObj kvs) = true → set_phase arg kvs = Done kvs' →
  is_incident (JObj kvs') = true.
Proof.
  intros Hi. unfold set_phase. destruct arg as [s|]; [|congruence].
  destruct (String.eqb s ""); [congruence|].
  destruct (str_in (lower s) NIST_PHASES) eqn:Hs; simpl; [|done].
  intros [= <-]. apply dict_set_incident; [done | done |]. by_requirement.
Qed.

Lemma set_owner_incident arg kvs :
  is_incident (JObj kvs) = true → is_incident (JObj (set_owner arg kvs)) = true.
Proof.
  intros Hi. unfold set_owner. destruct arg as [s|]; [|done].
  apply dict_set_incident; [done | done |]. by_requirement.
Qed.

(** An entry the requirements name is there and is of the required kind. *)
Lemma incident_entry k P kvs :
  is_incident (JObj kvs) = true → (k, P) ∈ requirements →
  ∃ v, dict_get k kvs = Some v ∧ P v = true.
Proof.
  unfold is_incident, meets. intros [Hm _]%andb_true_iff Hin.
  apply list_elem_of_In in Hin.
  pose proof (proj1 (forallb_forall _ _) Hm _ Hin) as Hk. simpl in Hk.
  destruct (dict_get k kvs) as [v|]; [|done]. by exists v.
Qed.

Lemma incident_text k kvs :
  is_incident (JObj kvs) = true → (k, is_text) ∈ requirements →
  ∃ s, dict_get k kvs = Some (JStr s).
Proof.
  intros Hi Hin. destruct (incident_entry k _ kvs Hi Hin) as (v & Hv & Ht).
  apply is_text_spec in Ht as [s ->]. by exists s.
Qed.

Lemma incident_word k vocab kvs :
  is_incident (JObj kvs) = true → (k, is_word vocab) ∈ requirements →
  ∃ s, dict_get k kvs = Some (JStr s) ∧ s ∈ vocab.
Proof.
  intros Hi Hin. destruct (incident_entry k _ kvs Hi Hin) as (v & Hv & Hw).
  destruct v as [| | |s| |]; try done. exists s. split; [done|].
  by apply bool_decide_eq_true in Hw.
Qed.

Lemma notes_required : ("notes", is_text) ∈ requirements.
Proof. unfold requirements. repeat first [left | right]. Qed.
Lemma owner_required : ("owner", is_text) ∈ requirements.
Proof. unfold requirements. repeat first [left | right]. Qed.
Lemma severity_required : ("severity", is_word SEVERITIES) ∈ requirements.
Proof. unfold requirements. repeat first [left | right]. Qed.
Lemma phase_required : ("phase", is_word NIST_PHASES) ∈ requirements.
Proof. unfold requirements. repeat first [left | right]. Qed.
Lemma status_required : ("status", is_word STATUSES) ∈ requirements.
Proof. unfold requirements. repeat first [left | right]. Qed.
Lemma id_required : ("id", is_text) ∈ requirements.
Proof. unfold requirements. repeat first [left | right]. Qed.

(** On a record of the tool the notes are a string, so appending to them
    cannot fail. *)
Lemma add_notes_to_incident arg kvs :
  is_incident (JObj kvs) = true →
  ∃ kvs', add_notes_to arg kvs = Done kvs' ∧ is_incident (JObj kvs') = true.
Proof.
  intros Hi. unfold add_notes_to. destruct arg as [s|]; [|by exists kvs].
  destruct (String.eqb s ""); [by exists kvs|].
  destruct (incident_text "notes" kvs Hi notes_required) as [old ->]. simpl.
  destruct (negb (String.eqb old "")); simpl; eexists; (split; [done|]);
    (apply dict_set_incident; [done | done |]); by_requirement.
Qed.

Lemma update_fields_incident args now kvs :
  is_incident (JObj kvs) = true →
  (∃ kvs', update_fields args now kvs = Done kvs' ∧
           is_incident (JObj kvs') = true) ∨
  update_fields args now kvs = Raised (SystemExit invalid_status) ∨
  update_fields args now kvs = Raised (SystemExit invalid_phase_upd).
Proof.
  intros Hi. unfold update_fields.
  destruct (set_status (upd_status args) kvs) as [k1|e] eqn:H1; simpl.
  - pose proof (set_status_incident _ _ _ Hi H1) as Hi1.
    destruct (set_phase (upd_phase args) k1) as [k2|e] eqn:H2; simpl.
    + pose proof (set_phase_incident _ _ _ Hi1 H2) as Hi2.
      destruct (add_notes_to_incident (upd_notes args) _
                  (set_owner_incident (upd_owner args) _ Hi2))
        as (k3 & -> & Hi3). simpl.
      left. eexists. split; [done|].
      apply dict_set_incident; [done | done |]. by_requirement.
    + right. right. unfold set_phase in H2.
      destruct (upd_phase args) as [s|]; [|done].
      destruct (String.eqb s ""); [done|].
      destruct (negb _); [|done]. by injection H2 as <-.
  - right. left. unfold set_status in H1.
    destruct (upd_status args) as [s|]; [|done].
    destruct (String.eqb s ""); [done|].
    destruct (negb _); [|done]. by injection H1 as <-.
Qed.

Lemma update_scan_incidents args now items :
  forallb is_incident items = true →
  (∃ items', update_scan args now items = Done (Some items') ∧
             forallb is_incident items' = true) ∨
  update_scan args now items = Done None ∨
  update_scan args now items = Raised (SystemExit invalid_status) ∨
  update_scan args now items = Raised (SystemExit invalid_phase_upd).
Proof.
  induction items as [|x items IH]; [by right; left|].
  intros [Hx Hr]%andb_true_iff. cbn [update_scan].
  destruct x as [| | | | |kvs]; try done.
  destruct (incident_text "id" kvs Hx id_required) as [i Hi].
  cbn [py_getitem]. rewrite Hi. cbn [mbind result_bind].
  destruct (py_eq_str (JStr i) (upd_id args)).
  - destruct (update_fields_incident args now kvs Hx)
      as [(kvs' & -> & Hi') | [-> | ->]]; cbn [mbind result_bind].
    + left. eexists. split; [done|]. by apply andb_true_iff.
    + by right; right; left.
    + by right; right; right.
  - destruct (IH Hr) as [(items' & -> & Hi') | [-> | [-> | ->]]];
      cbn [mbind result_bind option_map].
    + left. eexists. split; [done|]. by apply andb_true_iff.
    + by right; left.
    + by right; right; left.
    + by right; right; right.
Qed.

Lemma new_incident_is_incident args uuid now :
  str_in (lower (add_severity args)) SEVERITIES = true →
  str_in (lower (add_phase args)) NIST_PHASES = true →
  is_incident (JObj (new_incident args uuid now)) = true.
Proof.
  intros Hsev Hphase. unfold is_incident, meets, requirements, new_incident.
  cbn [forallb fst snd dict_get String.eqb Ascii.eqb Bool.eqb from_option
       is_text is_word andb].
  by rewrite Hsev, Hphase.
Qed.

Lemma update_incident_clean_cases args now f :
  is_clean f →
  (∃ f', update_incident args now f =
           (Done ["🛠️ Updated " +:+ upd_id args], f') ∧ is_clean f') ∨
  update_incident args now f =
    (Done ["No incident with id " +:+ upd_id args +:+ " found."], f) ∨
  update_incident args now f = (Raised (SystemExit invalid_status), f) ∨
  update_incident args now f = (Raised (SystemExit invalid_phase_upd), f).
Proof.
  intros (items & Hload & Hall). unfold update_incident. run_cmd.
  rewrite Hload. simpl.
  destruct (update_scan_incidents args now items Hall)
    as [(items' & -> & Hi') | [-> | [-> | ->]]]; simpl.
  - left. eexists. split; [done|]. by exists items'.
  - by right; left.
  - by right; right; left.
  - by right; right; right.
Qed.

(** X8.  On a store of records as the tool writes them, an update never
    fails on the data: it reports the update and leaves such a store
    again, or reports that no incident was found, or ends in [sys.exit]
    for a status or a phase outside its vocabulary, and in the last three
    cases the store file is as it was. *)
Theorem update_incident_on_clean_store args now f :
  is_clean f →
  (∃ f', update_incident args now f =
           (Done ["🛠️ Updated " +:+ upd_id args], f') ∧ is_clean f') ∨
  update_incident args now f =
    (Done ["No incident with id " +:+ upd_id args +:+ " found."], f) ∨
  update_incident args now f = (Raised (SystemExit invalid_status), f) ∨
  update_incident args now f = (Raised (SystemExit invalid_phase_upd), f).
Proof. apply update_incident_clean_cases. Qed.

Lemma run_keeps_clean o f : is_clean f → is_seed o = false → is_clean (run o f).
Proof.
  intros Hf Ho. destruct o as [force|args uuid now|args|args now| |sample];
    simpl; [| | | | |done].
  - unfold init_store. run_cmd. destruct (_ && _); simpl; [done|].
    by exists [].
  - destruct Hf as (items & Hload & Hall).
    unfold add_incident. run_cmd.
    destruct (str_in (lower (add_severity args)) SEVERITIES) eqn:Hsev; simpl;
      [|by exists items].
    destruct (str_in (lower (add_phase args)) NIST_PHASES) eqn:Hphase; simpl;
      [|by exists items].
    rewrite Hload. simpl. eexists. split; [done|].
    rewrite forallb_app, Hall. cbn [forallb andb].
    by rewrite new_incident_is_incident.
  - by rewrite list_incidents_reads.
  - destruct (update_incident_clean_cases args now f Hf)
      as [(f' & -> & Hf') | [-> | [-> | ->]]]; done.
  - by rewrite stats_reads.
Qed.

Lemma unseeded_store_is_clean_aux f : reachable_unseeded f → is_clean f.
Proof.
  induction 1 as [|o f _ IH Ho].
  - by exists [].
  - by apply run_keeps_clean.
Qed.

(** X9.  Every store the tool produces from nothing by [init], [add],
    [list], [update] and [stats] is a list of records with the nine
    entries of creation, all strings, with severity, phase and status in
    their vocabularies, and with no key outside the ten columns. *)
Theorem unseeded_store_is_clean f : reachable_unseeded f → is_clean f.
Proof. apply unseeded_store_is_clean_aux. Qed.

Lemma vocabulary_is_lower s :
  s ∈ SEVERITIES ∨ s ∈ NIST_PHASES ∨ s ∈ STATUSES → lower s = s.
Proof.
  unfold SEVERITIES, NIST_PHASES, STATUSES.
  intros [H | [H | H]];
    repeat (apply elem_of_cons in H as [->|H];
            [by rewrite lower_on_ascii by reflexivity|]);
    by apply elem_of_nil in H.
Qed.

Lemma incident_listable x : is_incident x = true → is_listable x = true.
Proof.
  destruct x as [| | | | |kvs]; try done. intros Hi.
  destruct (incident_word _ _ _ Hi severity_required) as (s1 & H1 & _).
  destruct (incident_word _ _ _ Hi phase_required) as (s2 & H2 & _).
  destruct (incident_word _ _ _ Hi status_required) as (s3 & H3 & _).
  destruct (incident_text _ _ Hi owner_required) as (s4 & H4).
  unfold is_listable. rewrite H1, H2, H3, H4.
  rewrite !bool_decide_eq_true_2 by by eexists. done.
Qed.

Lemma incident_normalised x : is_incident x = true → is_normalised x = true.
Proof.
  destruct x as [| | | | |kvs]; try done. intros Hi.
  destruct (incident_word _ _ _ Hi severity_required) as (s1 & H1 & Hv1).
  destruct (incident_word _ _ _ Hi phase_required) as (s2 & H2 & Hv2).
  destruct (incident_word _ _ _ Hi status_required) as (s3 & H3 & Hv3).
  unfold is_normalised, stored_lower. rewrite H1, H2, H3.
  rewrite !(vocabulary_is_lower) by tauto.
  by rewrite !String.eqb_refl.
Qed.

Lemma incident_countable x : is_incident x = true → is_countable x = true.
Proof.
  destruct x as [| | | | |kvs]; try done. intros Hi.
  destruct (incident_word _ _ _ Hi severity_required) as (s1 & H1 & _).
  destruct (incident_word _ _ _ Hi phase_required) as (s2 & H2 & _).
  destruct (incident_word _ _ _ Hi status_required) as (s3 & H3 & _).
  unfold is_countable, has_text. by rewrite H1, H2, H3.
Qed.


Lemma forallb_impl {A} (p q : A → bool) (l : list A) :
  (∀ x, p x = true → q x = true) → forallb p l = true → forallb q l = true.
Proof.
  intros Hpq. induction l as [|x l IH]; [done|]. simpl.
  intros [Hx Hl]%andb_true_iff. by rewrite (Hpq x Hx), IH.
Qed.

Lemma title_required : ("title", is_text) ∈ requirements.
Proof. unfold requirements. repeat first [left | right]. Qed.

Lemma incident_printable x : is_incident x = true → is_printable x = true.
Proof.
  destruct x as [| | | | |kvs]; try done. intros Hi.
  destruct (incident_text _ _ Hi id_required) as (s0 & H0).
  destruct (incident_text _ _ Hi title_required) as (s5 & H5).
  destruct (incident_word _ _ _ Hi severity_required) as (s1 & H1 & _).
  destruct (incident_word _ _ _ Hi phase_required) as (s2 & H2 & _).
  destruct (incident_word _ _ _ Hi status_required) as (s3 & H3 & _).
  unfold is_printable. rewrite H0, H1, H2, H3, H5.
  rewrite !bool_decide_eq_true_2 by by eexists. done.
Qed.

(** X10.  On every store the tool produces without seeding, a listing
    never fails on the data, neither while it selects nor while it
    prints: it keeps, in store order, exactly the records that match
    every supplied predicate when case is ignored on both sides, and
    prints one line for each of them, or that no incidents were found. *)
Theorem list_incidents_on_unseeded_store args f :
  reachable_unseeded f →
  ∃ items, _load f = JArr items ∧
    list_incidents args f = (Done (List.filter (matches_ci args) items), f) ∧
    list_incidents_printed args f =
      (report (List.filter (matches_ci args) items), None).
Proof.
  intros (items & Hload & Hall)%unseeded_store_is_clean_aux.
  exists items. split; [done|].
  assert (Hrun : list_incidents args f =
                 (Done (List.filter (matches_ci args) items), f)).
  { unfold list_incidents. run_cmd. rewrite Hload. simpl.
    rewrite filter_loop_filter
      by by apply (forallb_impl _ _ _ incident_listable).
    do 2 f_equal. apply List.filter_ext_in. intros x Hx.
    apply keeps_normalised, incident_normalised.
    by apply (proj1 (forallb_forall _ _) Hall). }
  split; [done|].
  apply list_incidents_printed_report; [by rewrite Hrun|].
  by apply forallb_of_filter, (forallb_impl _ _ _ incident_printable).
Qed.

(** ** Counting, whatever the values *)

Lemma keys_counter_add k c :
  keys (counter_add k c) =
    if existsb (fun k' => py_key_eq k' k) (keys c) then keys c else keys c ++ [k].
Proof.
  induction c as [|[k' n] c IH]; [done|]. cbn [counter_add keys map fst existsb].
  destruct (py_key_eq k' k); [done|]. cbn [keys map fst orb].
  fold (keys (counter_add k c)). fold (keys c). rewrite IH.
  by destruct (existsb _ (keys c)).
Qed.

Lemma total_counter_add k c : total (counter_add k c) = S (total c).
Proof.
  unfold total. induction c as [|[k' n] c IH]; [done|]. simpl.
  destruct (py_key_eq k' k); simpl; [done|]. rewrite IH. lia.
Qed.

Lemma count_into_hashable xs : ∀ c,
  forallb hashable xs = true →
  ∃ c', count_into c xs = Done c' ∧ total c' = total c + length xs ∧
        keys c' = foldl (fun seen v =>
                           if existsb (fun k => py_key_eq k v) seen
                           then seen else seen ++ [v]) (keys c) xs.
Proof.
  induction xs as [|x xs IH]; intros c; simpl.
  - intros _. exists c. split_and!; [done | lia | done].
  - intros [Hx Hxs]%andb_true_iff. rewrite Hx.
    destruct (IH (counter_add x c) Hxs) as (c' & -> & Htot & Hkeys).
    exists c'. split_and!; [done | |].
    + rewrite Htot, total_counter_add. lia.
    + by rewrite Hkeys, keys_counter_add.
Qed.

Lemma count_into_unhashable xs : ∀ c,
  forallb hashable xs = false → count_into c xs = Raised TypeError.
Proof.
  induction xs as [|x xs IH]; intros c; simpl; [done|].
  destruct (hashable x); simpl; [by apply IH | done].
Qed.

(** X11.  [Counter] succeeds exactly on values that can all be hashed,
    and ends in [TypeError] when one of them is a list or a dictionary.
    When it succeeds, the counts add up to the number of values and the
    keys are the values in the order of their first occurrence, [True]
    and [1], [False] and [0] counting as the same value. *)
Theorem Counter_on_any_values vs :
  (forallb hashable vs = true →
   ∃ c, Counter vs = Done c ∧ total c = length vs ∧ keys c = first_seen vs) ∧
  (forallb hashable vs = false → Counter vs = Raised TypeError).
Proof.
  split.
  - intros Hvs. destruct (count_into_hashable vs [] Hvs) as (c & Hc & Ht & Hk).
    by exists c.
  - apply count_into_unhashable.
Qed.

(** ** [stats] on the stores of the tool *)

Lemma column_words k vocab items :
  (k, is_word vocab) ∈ requirements →
  forallb is_incident items = true →
  ∃ vs, column k items = Done vs ∧ length vs = length items ∧
        forallb (is_word vocab) vs = true.
Proof.
  intros Hk. induction items as [|x items IH]; [by exists []|].
  intros [Hx Hr]%andb_true_iff.
  destruct (IH Hr) as (vs & Hcol & Hlen & Hw).
  destruct x as [| | | | |kvs]; try done.
  destruct (incident_word _ _ _ Hx Hk) as (s & Hs & Hin).
  exists (JStr s :: vs). unfold column in *. cbn [mapM py_getitem].
  rewrite Hs. cbn [mbind result_bind]. rewrite Hcol.
  split_and!; [done | simpl; by rewrite Hlen |].
  cbn [forallb is_word]. rewrite Hw. unfold str_in.
  by rewrite bool_decide_eq_true_2.
Qed.

Lemma words_are_text vocab vs :
  forallb (is_word vocab) vs = true → forallb is_text vs = true.
Proof. apply forallb_impl. by intros [| | |s| |]. Qed.

Lemma counted_words vocab vs c :
  forallb (is_word vocab) vs = true → counts_of c vs →
  forallb (is_word vocab) (keys c) = true.
Proof.
  intros Hvs (_ & Hkeys & _). apply forallb_forall. intros v Hv.
  apply list_elem_of_In, Hkeys, list_elem_of_In in Hv.
  by apply (proj1 (forallb_forall _ _) Hvs).
Qed.

(** X12.  On every store the tool produces without seeding, [stats]
    never fails.  It reports that there are no incidents when the store
    is empty and otherwise builds its three counters, in each of which
    the counts add up to the number of records and every key is a word of
    its vocabulary. *)
Theorem stats_on_unseeded_store f :
  reachable_unseeded f →
  ∃ items, _load f = JArr items ∧
    (items = [] → stats f = (Done NoIncidents, f)) ∧
    (items ≠ [] →
     ∃ by_sev by_phase by_status,
       stats f = (Done (Counts by_sev by_phase by_status), f) ∧
       total by_sev = length items ∧
       total by_phase = length items ∧
       total by_status = length items ∧
       forallb (is_word SEVERITIES) (keys by_sev) = true ∧
       forallb (is_word NIST_PHASES) (keys by_phase) = true ∧
       forallb (is_word STATUSES) (keys by_status) = true).
Proof.
  intros (items & Hload & Hall)%unseeded_store_is_clean_aux.
  exists items. split; [done|]. split.
  - intros ->. unfold stats. run_cmd. by rewrite Hload.
  - intros Hne.
    destruct (column_words _ _ _ severity_required Hall) as (v1 & Hc1 & Hl1 & Hw1).
    destruct (column_words _ _ _ phase_required Hall) as (v2 & Hc2 & Hl2 & Hw2).
    destruct (column_words _ _ _ status_required Hall) as (v3 & Hc3 & Hl3 & Hw3).
    destruct (Counter_counts _ (words_are_text _ _ Hw1)) as (c1 & Hr1 & Ho1).
    destruct (Counter_counts _ (words_are_text _ _ Hw2)) as (c2 & Hr2 & Ho2).
    destruct (Counter_counts _ (words_are_text _ _ Hw3)) as (c3 & Hr3 & Ho3).
    exists c1, c2, c3. split_and!.
    + unfold stats. run_cmd. rewrite Hload.
      destruct items as [|x items]; [done|]. cbn [py_bool negb py_iter].
      rewrite Hc1, Hc2, Hc3. cbn [result_bind]. by rewrite Hr1, Hr2, Hr3.
    + destruct Ho1 as (_ & _ & _ & ->). done.
    + destruct Ho2 as (_ & _ & _ & ->). done.
    + destruct Ho3 as (_ & _ & _ & ->). done.
    + by apply (counted_words _ v1).
    + by apply (counted_words _ v2).
    + by apply (counted_words _ v3).
Qed.

(** ** [export_csv] *)









(** ** What an update changes *)

(** Where the loop of [update_incident] rewrites, it rewrites the first
    record with the id, by [update_fields]. *)
Lemma update_scan_shape args now items items' :
  update_scan args now items = Done (Some items') →
  ∃ pre kvs kvs' post,
    items = pre ++ JObj kvs :: post ∧ items' = pre ++ JObj kvs' :: post ∧
    forallb (other_id (upd_id args)) pre = true ∧
    dict_get "id" kvs = Some (JStr (upd_id args)) ∧
    update_fields args now kvs = Done kvs'.
Proof.
  revert items'. induction items as [|x items IH]; intros items'; [done|].
  cbn [update_scan].
  destruct (py_getitem x "id") as [i|] eqn:Hi; cbn [mbind result_bind]; [|done].
  destruct (py_eq_str i (upd_id args)) eqn:Heq.
  - destruct x as [| | | | |kvs]; try done.
    destruct (update_fields args now kvs) as [kvs'|] eqn:Hf;
      cbn [mbind result_bind]; [|done].
    intros [= <-]. exists [], kvs, kvs', items. split_and!; try done.
    apply py_eq_str_true in Heq as ->. simpl in Hi.
    destruct (dict_get "id" kvs); by simplify_eq.
  - destruct (update_scan args now items) as [[r|]|]; cbn [mbind result_bind option_map];
      try done.
    intros [= <-].
    destruct (IH r eq_refl) as (pre & kvs & kvs' & post & -> & -> & Hpre & Hid & Hf).
    exists (x :: pre), kvs, kvs', post. split_and!; try done.
    cbn [forallb]. rewrite Hpre. unfold other_id. by rewrite Hi, Heq.
Qed.

(** X16.  An update either leaves the store file as it is or rewrites one
    record of a list, the first with the given id, in its place: the
    number and order of the records, every other record, and in the
    rewritten record every entry other than status, phase, owner, notes
    and updated_at are unchanged; in particular id, title, category,
    severity and reported_at cannot be changed by an update. *)
Theorem update_incident_changes_one_record args now f :
  snd (update_incident args now f) = f ∨
  ∃ pre kvs kvs' post,
    _load f = JArr (pre ++ JObj kvs :: post) ∧
    update_incident args now f =
      (Done ["🛠️ Updated " +:+ upd_id args],
       Holding (JArr (pre ++ JObj kvs' :: post))) ∧
    forallb (other_id (upd_id args)) pre = true ∧
    dict_get "id" kvs = Some (JStr (upd_id args)) ∧
    ∀ k, k ∉ updated_keys → dict_get k kvs' = dict_get k kvs.
Proof.
  unfold update_incident. run_cmd.
  destruct (py_iter (_load f)) as [items|] eqn:Hit; simpl; [|by left].
  destruct (update_scan args now items) as [[items'|]|] eqn:Hs; simpl;
    [|by left|by left].
  right.
  pose proof (update_scan_found_in_list _ _ _ _ _ Hit Hs) as Hv.
  destruct (update_scan_shape _ _ _ _ Hs)
    as (pre & kvs & kvs' & post & -> & -> & Hpre & Hid & Hf).
  exists pre, kvs, kvs', post. split_and!; try done.
  intros k Hk. by apply (update_fields_keeps k args now).
Qed.

Lemma set_status_valid arg kvs :
  bad_choice arg STATUSES = false →
  set_status arg kvs =
    Done (if supplied arg
          then dict_set "status" (JStr (lower (default "" arg))) kvs else kvs).
Proof.
  unfold bad_choice, set_status, supplied. destruct arg as [s|]; [|done].
  destruct (String.eqb s ""); [done|]. simpl. by intros ->.
Qed.

Lemma set_phase_valid arg kvs :
  bad_choice arg NIST_PHASES = false →
  set_phase arg kvs =
    Done (if supplied arg
          then dict_set "phase" (JStr (lower (default "" arg))) kvs else kvs).
Proof.
  unfold bad_choice, set_phase, supplied. destruct arg as [s|]; [|done].
  destruct (String.eqb s ""); [done|]. simpl. by intros ->.
Qed.

Lemma add_notes_to_valid arg kvs old :
  notes_text kvs old →
  add_notes_to arg kvs =
    Done (if supplied arg
          then dict_set "notes" (JStr (joined old (default "" arg))) kvs
          else kvs).
Proof.
  intros Hold. destruct arg as [s|]; [|done]. unfold supplied.
  destruct (String.eqb s "") eqn:Hs; simpl.
  - unfold add_notes_to. by rewrite Hs.
  - apply add_notes_to_joined; [|done]. by apply String.eqb_neq.
Qed.

(** X17.  When the first record with the given id has a string, or
    nothing, as notes and the supplied status and phase are in their
    vocabularies after lower-casing, the update succeeds and the record
    then holds: the lower-cased status and phase where supplied; the
    owner where one is given, the empty string included; the old notes
    with the new text on a line of its own where notes are supplied; the
    time stamp; and what it held before everywhere else. *)
Theorem update_incident_sets_fields args now f items pre kvs post old :
  _load f = JArr items →
  first_match (upd_id args) items pre kvs post →
  bad_choice (upd_status args) STATUSES = false →
  bad_choice (upd_phase args) NIST_PHASES = false →
  notes_text kvs old →
  ∃ kvs',
    update_incident args now f =
      (Done ["🛠️ Updated " +:+ upd_id args],
       Holding (JArr (pre ++ JObj kvs' :: post))) ∧
    dict_get "status" kvs' =
      (if supplied (upd_status args)
       then Some (JStr (lower (default "" (upd_status args))))
       else dict_get "status" kvs) ∧
    dict_get "phase" kvs' =
      (if supplied (upd_phase args)
       then Some (JStr (lower (default "" (upd_phase args))))
       else dict_get "phase" kvs) ∧
    dict_get "owner" kvs' =
      match upd_owner args with
      | Some o => Some (JStr o)
      | None => dict_get "owner" kvs
      end ∧
    dict_get "notes" kvs' =
      (if supplied (upd_notes args)
       then Some (JStr (joined old (default "" (upd_notes args))))
       else dict_get "notes" kvs) ∧
    dict_get "updated_at" kvs' = Some (JStr (now +:+ "Z")) ∧
    ∀ k, k ∉ updated_keys → dict_get k kvs' = dict_get k kvs.
Proof.
  intros Hload (-> & Hpre & Hid) Hs Hp Hold.
  set (k1 := if supplied (upd_status args)
             then dict_set "status" (JStr (lower (default "" (upd_status args)))) kvs
             else kvs).
  set (k2 := if supplied (upd_phase args)
             then dict_set "phase" (JStr (lower (default "" (upd_phase args)))) k1
             else k1).
  set (k3 := set_owner (upd_owner args) k2).
  set (k4 := if supplied (upd_notes args)
             then dict_set "notes" (JStr (joined old (default "" (upd_notes args)))) k3
             else k3).
  assert (Hk1 : ∀ k, k ≠ "status" → dict_get k k1 = dict_get k kvs).
  { intros k Hk. unfold k1. destruct (supplied (upd_status args)); [|done].
    apply dict_get_set_ne. congruence. }
  assert (Hk2 : ∀ k, k ≠ "phase" → dict_get k k2 = dict_get k k1).
  { intros k Hk. unfold k2. destruct (supplied (upd_phase args)); [|done].
    apply dict_get_set_ne. congruence. }
  assert (Hk3 : ∀ k, k ≠ "owner" → dict_get k k3 = dict_get k k2).
  { intros k Hk. unfold k3. by apply set_owner_keeps. }
  assert (Hk4 : ∀ k, k ≠ "notes" → dict_get k k4 = dict_get k k3).
  { intros k Hk. unfold k4. destruct (supplied (upd_notes args)); [|done].
    apply dict_get_set_ne. congruence. }
  assert (Hold3 : notes_text k3 old).
  { unfold notes_text. by rewrite Hk3, Hk2, Hk1. }
  assert (Hf : update_fields args now kvs =
               Done (dict_set "updated_at" (JStr (now +:+ "Z")) k4)).
  { unfold update_fields.
    rewrite (set_status_valid _ _ Hs). cbn [mbind result_bind]. fold k1.
    rewrite (set_phase_valid _ _ Hp). cbn [mbind result_bind]. fold k2 k3.
    by rewrite (add_notes_to_valid _ _ _ Hold3). }
  exists (dict_set "updated_at" (JStr (now +:+ "Z")) k4). split_and!.
  - unfold update_incident. run_cmd. rewrite Hload. simpl.
    rewrite (update_scan_first_match _ _ _ _ _ Hpre Hid). by rewrite Hf.
  - rewrite dict_get_set_ne, Hk4, Hk3, Hk2 by done. unfold k1.
    destruct (supplied (upd_status args)); [apply dict_get_set_eq | done].
  - rewrite dict_get_set_ne, Hk4, Hk3 by done. unfold k2.
    destruct (supplied (upd_phase args)); [apply dict_get_set_eq | by rewrite Hk1].
  - rewrite dict_get_set_ne, Hk4 by done. unfold k3, set_owner.
    destruct (upd_owner args); [apply dict_get_set_eq | by rewrite Hk2, Hk1].
  - rewrite dict_get_set_ne by done. unfold k4.
    destruct (supplied (upd_notes args));
      [apply dict_get_set_eq | by rewrite Hk3, Hk2, Hk1].
  - apply dict_get_set_eq.
  - intros k Hk. by apply (update_fields_keeps k args now).
Qed.

(** X18.  A dictionary without an ["id"] entry, standing before any
    record with the id asked for, ends the update in [KeyError], whatever
    follows it in the store, and the store file is as it was. *)
Theorem update_incident_missing_id args now f pre kvs post :
  _load f = JArr (pre ++ JObj kvs :: post) →
  forallb (other_id (upd_id args)) pre = true →
  dict_get "id" kvs = None →
  update_incident args now f = (Raised (KeyError "id"), f).
Proof.
  intros Hload Hpre Hid. unfold update_incident. run_cmd. rewrite Hload. simpl.
  assert (update_scan args now (pre ++ JObj kvs :: post) = Raised (KeyError "id"))
    as ->; [|done].
  clear Hload. induction pre as [|x pre IH]; simpl.
  - by rewrite Hid.
  - simpl in Hpre. apply andb_true_iff in Hpre as [Hx Hr].
    unfold other_id in Hx.
    destruct (py_getitem x "id") as [v|]; [|done]. simpl.
    apply negb_true_iff in Hx. by rewrite Hx, (IH Hr).
Qed.

(** ** Arguments are read without regard to case *)

Lemma field_differs_lower inc k arg :
  field_differs inc k (lower_opt arg) = field_differs inc k arg.
Proof.
  destruct arg as [s|]; [|done]. cbn [lower_opt fmap option_fmap option_map].
  unfold field_differs. rewrite lower_empty. by rewrite lower_idem.
Qed.

Lemma owner_differs_lower inc arg :
  owner_differs inc (lower_opt arg) = owner_differs inc arg.
Proof.
  destruct arg as [s|]; [|done]. cbn [lower_opt fmap option_fmap option_map].
  unfold owner_differs. rewrite lower_empty. by rewrite lower_idem.
Qed.

Lemma filter_loop_lower args items :
  filter_loop (lower_list_args args) items = filter_loop args items.
Proof.
  induction items as [|x items IH]; [done|].
  cbn [filter_loop lower_list_args list_severity list_phase list_status
       list_owner].
  by rewrite !field_differs_lower, owner_differs_lower, IH.
Qed.

(** X19.  A listing reads its predicates without regard to case: with
    every predicate lower-cased it returns what it returns with the
    predicates as given, on every store. *)
Theorem list_incidents_ignores_case_of_arguments args f :
  list_incidents (lower_list_args args) f = list_incidents args f.
Proof.
  unfold list_incidents. run_cmd.
  destruct (py_iter (_load f)) as [items|]; simpl; [|done].
  by rewrite filter_loop_lower.
Qed.

Lemma set_status_lower arg kvs :
  set_status (lower_opt arg) kvs = set_status arg kvs.
Proof.
  destruct arg as [s|]; [|done]. cbn [lower_opt fmap option_fmap option_map].
  unfold set_status. rewrite lower_empty. by rewrite lower_idem.
Qed.

Lemma set_phase_lower arg kvs :
  set_phase (lower_opt arg) kvs = set_phase arg kvs.
Proof.
  destruct arg as [s|]; [|done]. cbn [lower_opt fmap option_fmap option_map].
  unfold set_phase. rewrite lower_empty. by rewrite lower_idem.
Qed.

Lemma update_scan_lower args now items :
  update_scan (lower_update_args args) now items = update_scan args now items.
Proof.
  induction items as [|x items IH]; [done|].
  cbn [update_scan lower_update_args upd_id]. rewrite IH.
  unfold update_fields.
  cbn [lower_update_args upd_status upd_phase upd_owner upd_notes].
  destruct (py_getitem x "id") as [i|]; [|done]. cbn [mbind result_bind].
  destruct (py_eq_str i (upd_id args)); [|done].
  destruct x as [| | | | |kvs]; try done.
  rewrite set_status_lower.
  destruct (set_status (upd_status args) kvs) as [k1|]; [|done].
  cbn [mbind result_bind]. by rewrite set_phase_lower.
Qed.

(** X20.  An update reads its status and its phase without regard to
    case: with both lower-cased it does what it does with them as given,
    on every store. *)
Theorem update_incident_ignores_case_of_arguments args now f :
  update_incident (lower_update_args args) now f = update_incident args now f.
Proof.
  unfold update_incident. run_cmd.
  destruct (py_iter (_load f)) as [items|]; simpl; [|done].
  by rewrite update_scan_lower.
Qed.

(** X21.  A creation reads category, severity and phase without regard
    to case: with the three lower-cased it does what it does with them as
    given, on every store. *)
Theorem add_incident_ignores_case_of_arguments args uuid now f :
  add_incident (lower_add_args args) uuid now f = add_incident args uuid now f.
Proof.
  unfold add_incident, new_incident.
  cbn [lower_add_args add_title add_category add_severity add_phase
       add_owner add_notes].
  by rewrite !lower_idem.
Qed.

(** ** What a listing returns *)

(** One round of the loop of [list_incidents], case by case. *)
Ltac loop_round x H :=
  cbn [filter_loop] in H;
  destruct (field_differs x "severity" _) as [[]|] eqn:E1;
    cbn [mbind result_bind] in H; [| |done];
  [|destruct (field_differs x "phase" _) as [[]|] eqn:E2;
    cbn [mbind result_bind] in H; [| |done];
   [|destruct (field_differs x "status" _) as [[]|] eqn:E3;
     cbn [mbind result_bind] in H; [| |done];
    [|destruct (owner_differs x _) as [[]|] eqn:E4;
      cbn [mbind result_bind] in H; [| |done]]]].

Lemma filter_loop_sublist args items r :
  filter_loop args items = Done r → sublist r items.
Proof.
  revert r. induction items as [|x items IH]; intros r H.
  - injection H as <-. constructor.
  - loop_round x H; try by apply sublist_cons, IH.
    destruct (filter_loop args items) as [r'|]; cbn [mbind result_bind] in H;
      [|done].
    injection H as <-. by apply sublist_skip, IH.
Qed.

Lemma filter_loop_again args items r :
  filter_loop args items = Done r → filter_loop args r = Done r.
Proof.
  revert r. induction items as [|x items IH]; intros r H.
  - by injection H as <-.
  - loop_round x H; try by apply IH.
    destruct (filter_loop args items) as [r'|]; cbn [mbind result_bind] in H;
      [|done].
    injection H as <-.
    cbn [filter_loop]. rewrite E1, E2, E3, E4. cbn [mbind result_bind].
    by rewrite (IH _ eq_refl).
Qed.

(** X22.  A listing invents nothing and reorders nothing: on a store
    that is a list, what it returns is a sublist of the store, for every
    combination of predicates and whatever the items are. *)
Theorem list_incidents_returns_sublist args f items r :
  _load f = JArr items →
  fst (list_incidents args f) = Done r →
  sublist r items.
Proof.
  intros Hload. unfold list_incidents. run_cmd. rewrite Hload. simpl.
  destruct (filter_loop args items) as [r'|] eqn:Hr; simpl; [|done].
  intros [= <-]. by apply (filter_loop_sublist args).
Qed.

(** X23.  Listing is idempotent: a store that holds what a listing
    returned is returned whole by the same listing. *)
Theorem list_incidents_idempotent args f r :
  fst (list_incidents args f) = Done r →
  list_incidents args (Holding (JArr r)) = (Done r, Holding (JArr r)).
Proof.
  unfold list_incidents. run_cmd.
  destruct (py_iter (_load f)) as [items|]; simpl; [|done].
  destruct (filter_loop args items) as [r'|] eqn:Hr; simpl; [|done].
  intros [= <-]. by rewrite (filter_loop_again _ _ _ Hr).
Qed.

Lemma field_differs_unsupplied inc k arg :
  supplied arg = false → field_differs inc k arg = Done false.
Proof.
  unfold supplied, field_differs. destruct arg as [s|]; [|done].
  by destruct (String.eqb s "").
Qed.

Lemma owner_differs_unsupplied inc arg :
  supplied arg = false → owner_differs inc arg = Done false.
Proof.
  unfold supplied, owner_differs. destruct arg as [s|]; [|done].
  by destruct (String.eqb s "").
Qed.

(** X24.  Without predicates, absent or empty, a listing keeps the whole
    store and prints one line per record in store order, or that no
    incidents were found when the store is empty, provided that every
    record has what a line needs: an id, a title, a phase and a status,
    and a string as severity.  No entry is compared, so the values may be
    anything, and a record without an owner is printed with [-] in its
    place. *)
Theorem list_incidents_without_predicates args f items :
  _load f = JArr items →
  supplied (list_severity args) = false →
  supplied (list_phase args) = false →
  supplied (list_status args) = false →
  supplied (list_owner args) = false →
  forallb is_printable items = true →
  list_incidents args f = (Done items, f) ∧
  list_incidents_printed args f = (report items, None).
Proof.
  intros Hload H1 H2 H3 H4 Hp.
  assert (Hrun : list_incidents args f = (Done items, f)).
  { unfold list_incidents. run_cmd. rewrite Hload. simpl.
    assert (filter_loop args items = Done items) as ->; [|done].
    clear Hload Hp. induction items as [|x items IH]; [done|].
    cbn [filter_loop].
    rewrite !field_differs_unsupplied, owner_differs_unsupplied by done.
    cbn [mbind result_bind]. by rewrite IH. }
  split; [done|].
  apply list_incidents_printed_report; [by rewrite Hrun | done].
Qed.

(** ** Failures and the store *)

Lemma update_fields_raises args now kvs e :
  update_fields args now kvs = Raised e →
  e = SystemExit invalid_status ∨ e = SystemExit invalid_phase_upd ∨
  e = TypeError.
Proof.
  unfold update_fields.
  destruct (set_status (upd_status args) kvs) as [k1|e1] eqn:H1;
    cbn [mbind result_bind].
  - destruct (set_phase (upd_phase args) k1) as [k2|e2] eqn:H2;
      cbn [mbind result_bind].
    + destruct (add_notes_to (upd_notes args) _) as [k3|e3] eqn:H3;
        cbn [mbind result_bind]; [done|].
      intros [= <-]. right. right.
      unfold add_notes_to in H3. destruct (upd_notes args) as [s|]; [|done].
      destruct (String.eqb s ""); [done|].
      destruct (py_bool _); cbn [mbind result_bind] in H3; [|done].
      destruct (default (JStr "") _); simpl in H3; by simplify_eq.
    + intros [= <-]. right. left. unfold set_phase in H2.
      destruct (upd_phase args) as [s|]; [|done].
      destruct (String.eqb s ""); [done|].
      destruct (negb _); by simplify_eq.
  - intros [= <-]. left. unfold set_status in H1.
    destruct (upd_status args) as [s|]; [|done].
    destruct (String.eqb s ""); [done|].
    destruct (negb _); by simplify_eq.
Qed.

Lemma update_scan_raises args now items e :
  update_scan args now items = Raised e →
  e = SystemExit invalid_status ∨ e = SystemExit invalid_phase_upd ∨
  e = KeyError "id" ∨ e = TypeError.
Proof.
  induction items as [|x items IH]; [done|]. cbn [update_scan].
  destruct (py_getitem x "id") as [i|e0] eqn:Hi; cbn [mbind result_bind].
  - destruct (py_eq_str i (upd_id args)).
    + destruct x as [| | | | |kvs]; try by (intros [= <-]; right; right; right).
      destruct (update_fields args now kvs) as [kvs'|e1] eqn:Hf;
        cbn [mbind result_bind]; [done|].
      intros [= <-].
      destruct (update_fields_raises _ _ _ _ Hf) as [-> | [-> | ->]]; tauto.
    + destruct (update_scan args now items) as [r|e1];
        cbn [mbind result_bind]; [done|].
      intros [= <-]. by apply IH.
  - intros [= <-]. destruct x as [| | | | |kvs]; simpl in Hi;
      try (injection Hi as <-; tauto).
    destruct (dict_get "id" kvs); [done|]. injection Hi as <-. tauto.
Qed.

(** X25.  [init_store] ends in none of the exceptions of this
    development; [list_incidents] and [stats] never write the store
    file; an [add_incident] ends in no other of these exceptions than a
    [sys.exit] of validation or the [AttributeError] of [append], and an
    [update_incident] in no other than a [sys.exit] of validation, the
    [KeyError] of a missing id or a [TypeError], and then neither has
    written the store file: each of them is raised before [_save]. *)
Theorem failures_leave_the_store f :
  (∀ force, ∃ out, fst (init_store force f) = Done out) ∧
  (∀ args, snd (list_incidents args f) = f) ∧
  snd (stats f) = f ∧
  (∀ args uuid now e,
     fst (add_incident args uuid now f) = Raised e →
     (e = SystemExit invalid_severity ∨ e = SystemExit invalid_phase_add ∨
      e = AttributeError) ∧
     snd (add_incident args uuid now f) = f) ∧
  (∀ args now e,
     fst (update_incident args now f) = Raised e →
     (e = SystemExit invalid_status ∨ e = SystemExit invalid_phase_upd ∨
      e = KeyError "id" ∨ e = TypeError) ∧
     snd (update_incident args now f) = f).
Proof.
  split_and!.
  - intros force. unfold init_store. run_cmd.
    destruct (_ && _); by eexists.
  - intros args. apply list_incidents_reads.
  - apply stats_reads.
  - intros args uuid now e. unfold add_incident. run_cmd.
    destruct (negb _); [intros [= <-]; tauto|].
    destruct (negb _); [intros [= <-]; tauto|].
    destruct (_load f); simpl; intros [= <-]; tauto.
  - intros args now e. unfold update_incident. run_cmd.
    destruct (py_iter (_load f)) as [items|e0] eqn:Hit; simpl.
    + destruct (update_scan args now items) as [[items'|]|e1] eqn:Hs; simpl;
        [done | done |].
      intros [= <-]. split; [|done]. by apply (update_scan_raises args now items).
    + intros [= <-]. split; [|done].
      destruct (_load f); simpl in Hit; simplify_eq; tauto.
Qed.

(** ** [stats] and missing entries *)

Lemma column_missing k pre kvs post :
  forallb (fun x => bool_decide (is_Some (entry k x))) pre = true →
  dict_get k kvs = None →
  column k (pre ++ JObj kvs :: post) = Raised (KeyError k).
Proof.
  intros Hpre Hk. unfold column.
  induction pre as [|x pre IH]; cbn [app mapM py_getitem].
  - by rewrite Hk.
  - simpl in Hpre. apply andb_true_iff in Hpre as [Hx Hr].
    apply bool_decide_eq_true in Hx as [v Hv].
    destruct x as [| | | | |kvs']; try done. simpl in Hv.
    cbn [py_getitem]. rewrite Hv. cbn [mbind result_bind].
    by rewrite (IH Hr).
Qed.

(** X26.  A dictionary without a severity, the items before it having
    one, ends [stats] in [KeyError] for that entry, before any phase or
    status is read, and the store file is as it was. *)
Theorem stats_missing_severity f pre kvs post :
  _load f = JArr (pre ++ JObj kvs :: post) →
  forallb (fun x => bool_decide (is_Some (entry "severity" x))) pre = true →
  dict_get "severity" kvs = None →
  stats f = (Raised (KeyError "severity"), f).
Proof.
  intros Hload Hpre Hk. unfold stats. run_cmd. rewrite Hload.
  assert (py_bool (JArr (pre ++ JObj kvs :: post)) = true) as ->
    by by destruct pre.
  cbn [negb py_iter]. by rewrite (column_missing _ _ _ _ Hpre Hk).
Qed.

(** ** Creation followed by an update *)

Lemma add_incident_saves args uuid now f items :
  _load f = JArr items →
  str_in (lower (add_severity args)) SEVERITIES = true →
  str_in (lower (add_phase args)) NIST_PHASES = true →
  snd (add_incident args uuid now f) =
    Holding (JArr (items ++ [JObj (new_incident args uuid now)])).
Proof.
  intros Hload Hsev Hphase. unfold add_incident. run_cmd.
  by rewrite Hsev, Hphase, Hload.
Qed.

Lemma update_fields_succeeds args now kvs old :
  bad_choice (upd_status args) STATUSES = false →
  bad_choice (upd_phase args) NIST_PHASES = false →
  notes_text kvs old →
  ∃ kvs', update_fields args now kvs = Done kvs'.
Proof.
  intros Hs Hp Hold. unfold update_fields.
  rewrite (set_status_valid _ _ Hs). cbn [mbind result_bind].
  rewrite (set_phase_valid _ _ Hp). cbn [mbind result_bind].
  rewrite (add_notes_to_valid _ _ old); [by eexists|].
  unfold notes_text. rewrite set_owner_keeps by done.
  destruct (supplied (upd_phase args)), (supplied (upd_status args));
    by rewrite ?dict_get_set_ne by done.
Qed.

(** X27.  An incident created with an id that no record of the store
    carries, every record carrying one, can be updated at once by that
    id: the update rewrites the record just appended and nothing else,
    keeping what creation wrote outside status, phase, owner, notes and
    updated_at. *)
Theorem add_then_update args uuid now uargs now' f items :
  _load f = JArr items →
  forallb (other_id (prefix 8 uuid)) items = true →
  str_in (lower (add_severity args)) SEVERITIES = true →
  str_in (lower (add_phase args)) NIST_PHASES = true →
  upd_id uargs = prefix 8 uuid →
  bad_choice (upd_status uargs) STATUSES = false →
  bad_choice (upd_phase uargs) NIST_PHASES = false →
  ∃ kvs',
    update_incident uargs now' (snd (add_incident args uuid now f)) =
      (Done ["🛠️ Updated " +:+ prefix 8 uuid],
       Holding (JArr (items ++ [JObj kvs']))) ∧
    ∀ k, k ∉ updated_keys →
      dict_get k kvs' = dict_get k (new_incident args uuid now).
Proof.
  intros Hload Hother Hsev Hphase Hid Hs Hp.
  rewrite (add_incident_saves _ _ _ _ _ Hload Hsev Hphase).
  destruct (update_fields_succeeds uargs now' (new_incident args uuid now)
              (or_empty (add_notes args)) Hs Hp) as [kvs' Hf]; [by left|].
  exists kvs'. split.
  - unfold update_incident. run_cmd.
    rewrite (update_scan_first_match uargs now' items _ []);
      [| by rewrite Hid | by rewrite Hid].
    rewrite Hf. simpl. by rewrite Hid.
  - intros k Hk. by apply (update_fields_keeps k uargs now').
Qed.

(** X28.  An incident created with an id that a record of the store
    already carries cannot be reached by an update: the update by that id
    rewrites the earlier record, and the record just appended stays as
    creation wrote it. *)
Theorem update_after_collision args uuid now uargs now' f items pre kvs post old :
  _load f = JArr items →
  first_match (prefix 8 uuid) items pre kvs post →
  notes_text kvs old →
  str_in (lower (add_severity args)) SEVERITIES = true →
  str_in (lower (add_phase args)) NIST_PHASES = true →
  upd_id uargs = prefix 8 uuid →
  bad_choice (upd_status uargs) STATUSES = false →
  bad_choice (upd_phase uargs) NIST_PHASES = false →
  ∃ kvs',
    update_incident uargs now' (snd (add_incident args uuid now f)) =
      (Done ["🛠️ Updated " +:+ prefix 8 uuid],
       Holding (JArr (pre ++ JObj kvs'
                        :: post ++ [JObj (new_incident args uuid now)]))) ∧
    update_fields uargs now' kvs = Done kvs'.
Proof.
  intros Hload (-> & Hpre & Hkid) Hold Hsev Hphase Hid Hs Hp.
  rewrite (add_incident_saves _ _ _ _ _ Hload Hsev Hphase).
  destruct (update_fields_succeeds uargs now' kvs old Hs Hp Hold) as [kvs' Hf].
  exists kvs'. split; [|done].
  unfold update_incident. run_cmd.
  rewrite <- app_assoc. cbn [app].
  rewrite (update_scan_first_match uargs now' pre kvs);
    [| by rewrite Hid | by rewrite Hid].
  rewrite Hf. simpl. by rewrite Hid.
Qed.

End Program.

(** * The properties on sample inputs

    The commands are evaluated with the ASCII implementation of the
    interface; every text that a sample run lower-cases or upper-cases
    is ASCII, where it agrees with Python. *)

#[global] Existing Instance ascii_builtins.

(** Applies a theorem to its sample input and leaves its hypotheses. *)
Ltac at_sample T :=
  first [ simple refine T | simple refine (T _) | simple refine (T _ _)
        | simple refine (T _ _ _) | simple refine (T _ _ _ _)
        | simple refine (T _ _ _ _ _) | simple refine (T _ _ _ _ _ _)
        | simple refine (T _ _ _ _ _ _ _)
        | simple refine (T _ _ _ _ _ _ _ _) ].

Lemma update_incident_invalid_aborts_witness :
  update_incident (UpdateArgs "1a2b3c4d" (Some "closed") (Some "triage") None None)
      "2024-05-02T08:30:00" (Holding (JArr [demo_record])) =
    (Raised (SystemExit invalid_phase_upd), Holding (JArr [demo_record])).
Proof.
  at_sample (update_incident_invalid_aborts
           (UpdateArgs "1a2b3c4d" (Some "closed") (Some "triage") None None)
           "2024-05-02T08:30:00" (Holding (JArr [demo_record]))
           [demo_record] [] demo_fields []).
  - reflexivity.
  - unfold first_match. simpl. done.
  - vm_compute. reflexivity.
Defined.

Lemma update_incident_not_found_witness :
  update_incident (UpdateArgs "ffffffff" (Some "closed") None None (Some "n"))
      "2024-05-02T08:30:00" (Holding (JArr [demo_record])) =
    (Done ["No incident with id ffffffff found."],
     Holding (JArr [demo_record])).
Proof.
  at_sample (update_incident_not_found
           (UpdateArgs "ffffffff" (Some "closed") None None (Some "n"))
           "2024-05-02T08:30:00" (Holding (JArr [demo_record]))
           [demo_record]).
  - reflexivity.
  - vm_compute. reflexivity.
Defined.

Lemma add_incident_invalid_severity_witness :
  add_incident (AddArgs "Odd login" "access" "Urgent" "detect" None None)
      "9f8e7d6c-0000-4000-8000-000000000000" "2024-05-03T09:00:00"
      (Holding (JArr [demo_record])) =
    (Raised (SystemExit invalid_severity), Holding (JArr [demo_record])) ∧
  invalid_severity =
    "Invalid severity. Use one of: low, medium, high, critical".
Proof.
  at_sample (add_incident_invalid_severity
           (AddArgs "Odd login" "access" "Urgent" "detect" None None)).
  vm_compute. reflexivity.
Defined.

Lemma update_incident_touch_witness :
  let kvs' := dict_set "updated_at" (JStr "2024-05-02T08:30:00Z") demo_fields in
  update_incident (UpdateArgs "1a2b3c4d" (Some "") None None None)
      "2024-05-02T08:30:00" (Holding (JArr [demo_record])) =
    (Done ["🛠️ Updated 1a2b3c4d"], Holding (JArr [JObj kvs'])) ∧
  dict_get "updated_at" kvs' = Some (JStr "2024-05-02T08:30:00Z") ∧
  ∀ k, k ≠ "updated_at" → dict_get k kvs' = dict_get k demo_fields.
Proof.
  at_sample (update_incident_touch
           (UpdateArgs "1a2b3c4d" (Some "") None None None)
           "2024-05-02T08:30:00" (Holding (JArr [demo_record]))
           [demo_record] [] demo_fields []).
  - reflexivity.
  - unfold first_match. simpl. done.
  - reflexivity.
  - reflexivity.
  - reflexivity.
  - reflexivity.
Defined.

Lemma update_incident_notes_append_witness :
  ∃ kvs1 kvs2,
    update_incident (note_args "1a2b3c4d" "a") "2024-05-02T08:30:00"
        (Holding (JArr [demo_record])) =
      (Done ["🛠️ Updated 1a2b3c4d"], Holding (JArr [JObj kvs1])) ∧
    dict_get "notes" kvs1 = Some (JStr (joined "" "a")) ∧
    update_incident (note_args "1a2b3c4d" "b") "2024-05-02T09:45:00"
        (Holding (JArr [JObj kvs1])) =
      (Done ["🛠️ Updated 1a2b3c4d"], Holding (JArr [JObj kvs2])) ∧
    dict_get "notes" kvs2 = Some (JStr (joined (joined "" "a") "b")) ∧
    ("" = "" → dict_get "notes" kvs2 = Some (JStr ("a" +:+ nl +:+ "b"))).
Proof.
  at_sample (update_incident_notes_append "1a2b3c4d" "a" "b"
           "2024-05-02T08:30:00" "2024-05-02T09:45:00"
           (Holding (JArr [demo_record])) [demo_record] [] demo_fields [] "").
  - reflexivity.
  - unfold first_match. simpl. done.
  - left. reflexivity.
  - discriminate.
  - discriminate.
Defined.

(** C4, as the claim words it, at one input: the store holds
    [demo_record] and the draw for the new incident starts with the same
    eight characters.  The valid incident is appended, and its id equals
    the id that was already there. *)
Lemma add_incident_id_collision :
  ¬ ∃ inc,
      _load (snd (add_incident repeat_args clash_uuid clash_now
                    (Holding (JArr [demo_record])))) =
        JArr ([demo_record] ++ [inc]) ∧
      ∀ x, x ∈ [demo_record] → id_of x ≠ id_of inc.
Proof.
  intros (inc & Hload & Hfresh).
  vm_compute in Hload. injection Hload as <-.
  apply (Hfresh demo_record); [by left | reflexivity].
Qed.

Lemma add_incident_then_load_witness :
  ∃ inc,
    add_incident clash_args "9f8e7d6c-5e6f-4a7b-8c9d-0e1f2a3b4c5d" clash_now
        (Holding (JArr [demo_record])) =
      (Done ["✅ Added incident 9f8e7d6c — Stolen laptop"],
       Holding (JArr ([demo_record] ++ [JObj inc]))) ∧
    _load (snd (add_incident clash_args "9f8e7d6c-5e6f-4a7b-8c9d-0e1f2a3b4c5d"
                  clash_now (Holding (JArr [demo_record])))) =
      JArr ([demo_record] ++ [JObj inc]) ∧
    map fst inc = ["id"; "title"; "category"; "severity"; "phase"; "status";
                   "reported_at"; "owner"; "notes"] ∧
    dict_get "id" inc = Some (JStr "9f8e7d6c") ∧
    dict_get "title" inc = Some (JStr "Stolen laptop") ∧
    dict_get "category" inc = Some (JStr "data_loss") ∧
    dict_get "severity" inc = Some (JStr "high") ∧
    dict_get "phase" inc = Some (JStr "respond") ∧
    dict_get "status" inc = Some (JStr "open") ∧
    dict_get "reported_at" inc = Some (JStr "2024-05-03T09:00:00Z") ∧
    dict_get "owner" inc = Some (JStr "soc") ∧
    dict_get "notes" inc = Some (JStr "") ∧
    ((∀ x, x ∈ [demo_record] → id_of x ≠ id_of (JObj inc)) ↔
     JStr "9f8e7d6c" ∉ ids [demo_record]).
Proof.
  at_sample (add_incident_then_load clash_args
           "9f8e7d6c-5e6f-4a7b-8c9d-0e1f2a3b4c5d" clash_now
           (Holding (JArr [demo_record])) [demo_record]).
  - reflexivity.
  - vm_compute. reflexivity.
  - vm_compute. reflexivity.
Defined.

(** C2, as the claim words it, at one input: the file holds well-formed
    JSON that is not a sequence of records, here the object
    [{"incidents": []}].  [_load] returns that object, not the empty
    sequence. *)
Lemma load_keeps_foreign_document :
  is_record_sequence (JObj [("incidents", JArr [])]) = false ∧
  _load (Holding (JObj [("incidents", JArr [])])) ≠ JArr [].
Proof. split; [reflexivity | discriminate]. Qed.

(** C9, as the claim words it, at one run: a sample that holds the same
    record twice is seeded into a fresh store.  No identifier is drawn,
    the store that results is reachable, and it holds the same id
    twice. *)
Lemma reachable_duplicate_ids :
  reachable (run (Seed (Holding (JArr [demo_record; demo_record]))) Missing) ∧
  ¬ unique_ids (run (Seed (Holding (JArr [demo_record; demo_record]))) Missing).
Proof.
  split; [apply reach_step, reach_start|].
  vm_compute. intros H. inversion H as [|? ? Hnot _]; subst.
  apply Hnot. by left.
Qed.

(** The other way to the same state: two incidents are added and both
    draws start with the same eight characters. *)
Lemma reachable_duplicate_ids_by_collision :
  reachable (run (Add repeat_args clash_uuid clash_now)
               (run (Add repeat_args clash_uuid clash_now) Missing)) ∧
  ¬ unique_ids (run (Add repeat_args clash_uuid clash_now)
                  (run (Add repeat_args clash_uuid clash_now) Missing)).
Proof.
  split; [do 2 apply reach_step; apply reach_start|].
  vm_compute. intros H. inversion H as [|? ? Hnot _]; subst.
  apply Hnot. by left.
Qed.

Lemma unique_ids_invariant_witness :
  unique_ids
    (run (Update (note_args "9f8e7d6c" "contained host") clash_now)
       (run (Add repeat_args fresh_uuid clash_now)
          (run (Seed (Holding (JArr [seeded_record; demo_record]))) Missing))).
Proof.
  at_sample (unique_ids_invariant
           (run (Update (note_args "9f8e7d6c" "contained host") clash_now)
              (run (Add repeat_args fresh_uuid clash_now)
                 (run (Seed (Holding (JArr [seeded_record; demo_record])))
                    Missing)))).
  apply guarded_step; [apply guarded_step; [apply guarded_step|]|].
  - apply guarded_start.
  - vm_compute. apply NoDup_cons. split; [|apply NoDup_singleton].
    apply not_elem_of_cons. split; [discriminate | apply not_elem_of_nil].
  - vm_compute.
    apply not_elem_of_cons. split; [discriminate|].
    apply not_elem_of_cons. split; [discriminate | apply not_elem_of_nil].
  - exact I.
Defined.

(** C7, as the claim words it, at one input: the store holds one record
    whose severity is written ["High"] and the listing asks for severity
    ["high"].  The record matches under equality that ignores case, and
    [list_incidents] neither keeps nor prints it. *)
Lemma list_incidents_stored_case :
  matches_ci (ListArgs (Some "high") None None None) seeded_record = true ∧
  list_incidents (ListArgs (Some "high") None None None)
      (Holding (JArr [seeded_record])) =
    (Done [], Holding (JArr [seeded_record])) ∧
  list_incidents_printed (ListArgs (Some "high") None None None)
      (Holding (JArr [seeded_record])) =
    ([[Text "No incidents found."]], None).
Proof. split_and!; reflexivity. Qed.

Lemma list_incidents_filter_witness :
  list_incidents (ListArgs (Some "HIGH") (Some "Respond") None (Some "soc"))
      (Holding (JArr [demo_record; staffed_record; demo_record])) =
    (Done (List.filter (keeps (ListArgs (Some "HIGH") (Some "Respond") None (Some "soc")))
             [demo_record; staffed_record; demo_record]),
     Holding (JArr [demo_record; staffed_record; demo_record])) ∧
  list_incidents_printed (ListArgs (Some "HIGH") (Some "Respond") None (Some "soc"))
      (Holding (JArr [demo_record; staffed_record; demo_record])) =
    (report (List.filter (keeps (ListArgs (Some "HIGH") (Some "Respond") None (Some "soc")))
               [demo_record; staffed_record; demo_record]), None) ∧
  (forallb is_normalised [demo_record; staffed_record; demo_record] = true →
   List.filter (keeps (ListArgs (Some "HIGH") (Some "Respond") None (Some "soc")))
       [demo_record; staffed_record; demo_record] =
     List.filter (matches_ci (ListArgs (Some "HIGH") (Some "Respond") None (Some "soc")))
       [demo_record; staffed_record; demo_record]) ∧
  (∀ ps,
     ps ≡ₚ single_filters (ListArgs (Some "HIGH") (Some "Respond") None (Some "soc")) →
     filter_chain ps [demo_record; staffed_record; demo_record] =
       Done (List.filter (keeps (ListArgs (Some "HIGH") (Some "Respond") None (Some "soc")))
               [demo_record; staffed_record; demo_record])).
Proof.
  at_sample (list_incidents_filter (ListArgs (Some "HIGH") (Some "Respond") None (Some "soc"))
           (Holding (JArr [demo_record; staffed_record; demo_record]))
           [demo_record; staffed_record; demo_record]).
  - reflexivity.
  - vm_compute. reflexivity.
  - vm_compute. reflexivity.
Defined.

(** On that input the listing keeps and prints the one record of the
    owner asked for, and the three records are in lower case. *)
Lemma list_incidents_filter_sample :
  List.filter (keeps (ListArgs (Some "HIGH") (Some "Respond") None (Some "soc")))
    [demo_record; staffed_record; demo_record] = [staffed_record] ∧
  report [staffed_record] =
    [[ Value (JStr "2b3c4d5e"); Text " | "; Text "HIGH"; Text " | ";
       Value (JStr "respond"); Text " | "; Value (JStr "open"); Text " | ";
       Value (JStr "Stolen laptop"); Text " (owner: "; Value (JStr "SOC");
       Text ")" ]] ∧
  forallb is_normalised [demo_record; staffed_record; demo_record] = true.
Proof. split_and!; vm_compute; reflexivity. Qed.

(** C8, as the claim words it, at one input: the empty store.  [stats]
    takes the branch of line 114 and builds no counter. *)
Lemma stats_of_empty_store :
  stats (Holding (JArr [])) = (Done NoIncidents, Holding (JArr [])) ∧
  ¬ ∃ by_sev by_phase by_status,
      fst (stats (Holding (JArr []))) = Done (Counts by_sev by_phase by_status).
Proof. split; [reflexivity|]. by intros (? & ? & ? & [=]). Qed.

Lemma stats_counts_witness :
  ∃ sevs phases statuses by_sev by_phase by_status,
    column "severity" [demo_record; seeded_record; demo_record] = Done sevs ∧
    column "phase" [demo_record; seeded_record; demo_record] = Done phases ∧
    column "status" [demo_record; seeded_record; demo_record] = Done statuses ∧
    stats (Holding (JArr [demo_record; seeded_record; demo_record])) =
      (Done (Counts by_sev by_phase by_status),
       Holding (JArr [demo_record; seeded_record; demo_record])) ∧
    counts_of by_sev sevs ∧
    total by_sev = length [demo_record; seeded_record; demo_record] ∧
    counts_of by_phase phases ∧
    total by_phase = length [demo_record; seeded_record; demo_record] ∧
    counts_of by_status statuses ∧
    total by_status = length [demo_record; seeded_record; demo_record].
Proof.
  at_sample (stats_counts
           (Holding (JArr [demo_record; seeded_record; demo_record]))
           [demo_record; seeded_record; demo_record]).
  - reflexivity.
  - discriminate.
  - vm_compute. reflexivity.
Defined.

Lemma init_store_keeps_existing_witness :
  init_store false Undecodable =
    (Done ["incidents.json already exists. Use --force to overwrite."],
     Undecodable).
Proof. at_sample (init_store_keeps_existing Undecodable). discriminate. Defined.

Lemma init_store_resets_witness :
  init_store true (Holding (JArr [demo_record])) =
    (Done ["Initialized empty store at incidents.json"], Holding (JArr [])) ∧
  (∀ args,
     fst (list_incidents args
            (snd (init_store true (Holding (JArr [demo_record]))))) = Done []) ∧
  fst (stats (snd (init_store true (Holding (JArr [demo_record]))))) =
    Done NoIncidents ∧
  (∀ args now,
     fst (update_incident args now
            (snd (init_store true (Holding (JArr [demo_record]))))) =
       Done ["No incident with id " +:+ upd_id args +:+ " found."]) ∧
  (∀ output,
     export_csv output (snd (init_store true (Holding (JArr [demo_record])))) =
       (None, inr ["No data to export."])).
Proof.
  at_sample (init_store_resets true (Holding (JArr [demo_record]))).
  left. reflexivity.
Defined.

Lemma seed_replaces_witness :
  seed (Holding (JArr [seeded_record])) (Holding (JArr [demo_record; demo_record])) =
    (Done ["🌱 Seeded " +:+ pretty 1 +:+ " incidents into incidents.json"],
     Holding (JArr [seeded_record])).
Proof.
  at_sample (seed_replaces (JArr [seeded_record]) 1
           (Holding (JArr [demo_record; demo_record]))).
  reflexivity.
Defined.

Lemma seed_writes_before_failing_witness :
  seed (Holding (JNum 7)) (Holding (JArr [demo_record])) =
    (Raised TypeError, Holding (JNum 7)).
Proof.
  at_sample (seed_writes_before_failing (JNum 7) TypeError
           (Holding (JArr [demo_record]))).
  reflexivity.
Defined.

Lemma add_incident_invalid_phase_witness :
  add_incident (AddArgs "Odd login" "access" "High" "triage" None None)
      clash_uuid clash_now (Holding (JArr [demo_record])) =
    (Raised (SystemExit invalid_phase_add), Holding (JArr [demo_record])) ∧
  invalid_phase_add =
    "Invalid phase. Use one of: identify, protect, detect, respond, recover".
Proof.
  at_sample (add_incident_invalid_phase
           (AddArgs "Odd login" "access" "High" "triage" None None)).
  - vm_compute. reflexivity.
  - vm_compute. reflexivity.
Defined.

Lemma add_incident_needs_list_witness :
  add_incident clash_args clash_uuid clash_now
      (Holding (JObj [("incidents", JArr [])])) =
    (Raised AttributeError, Holding (JObj [("incidents", JArr [])])).
Proof.
  at_sample (add_incident_needs_list clash_args clash_uuid clash_now
           (Holding (JObj [("incidents", JArr [])]))).
  - vm_compute. reflexivity.
  - vm_compute. reflexivity.
  - discriminate.
Defined.

Lemma add_incident_overwrites_corrupt_witness :
  snd (add_incident clash_args clash_uuid clash_now Undecodable) =
    Holding (JArr [JObj (new_incident clash_args clash_uuid clash_now)]).
Proof.
  at_sample (add_incident_overwrites_corrupt clash_args clash_uuid clash_now
           Undecodable).
  - right. reflexivity.
  - vm_compute. reflexivity.
  - vm_compute. reflexivity.
Defined.

Lemma update_incident_on_clean_store_witness :
  (∃ f', update_incident (UpdateArgs "1a2b3c4d" (Some "Closed") None (Some "") None)
           clash_now (Holding (JArr [demo_record])) =
           (Done ["🛠️ Updated 1a2b3c4d"], f') ∧ is_clean f') ∨
  update_incident (UpdateArgs "1a2b3c4d" (Some "Closed") None (Some "") None)
      clash_now (Holding (JArr [demo_record])) =
    (Done ["No incident with id 1a2b3c4d found."],
     Holding (JArr [demo_record])) ∨
  update_incident (UpdateArgs "1a2b3c4d" (Some "Closed") None (Some "") None)
      clash_now (Holding (JArr [demo_record])) =
    (Raised (SystemExit invalid_status), Holding (JArr [demo_record])) ∨
  update_incident (UpdateArgs "1a2b3c4d" (Some "Closed") None (Some "") None)
      clash_now (Holding (JArr [demo_record])) =
    (Raised (SystemExit invalid_phase_upd), Holding (JArr [demo_record])).
Proof.
  at_sample (update_incident_on_clean_store
           (UpdateArgs "1a2b3c4d" (Some "Closed") None (Some "") None)
           clash_now (Holding (JArr [demo_record]))).
  exists [demo_record]. split; [reflexivity | vm_compute; reflexivity].
Defined.

Lemma unseeded_store_is_clean_witness :
  is_clean (run (Update (note_args "1a2b3c4d" "contained host") clash_now)
              (run (Add clash_args clash_uuid clash_now)
                 (run (Init false) Missing))).
Proof.
  at_sample (unseeded_store_is_clean
           (run (Update (note_args "1a2b3c4d" "contained host") clash_now)
              (run (Add clash_args clash_uuid clash_now)
                 (run (Init false) Missing)))).
  apply unseeded_step; [apply unseeded_step; [apply unseeded_step|]|].
  - apply unseeded_start.
  - reflexivity.
  - reflexivity.
  - reflexivity.
Defined.

Lemma list_incidents_on_unseeded_store_witness :
  ∃ items,
    _load (run (Add clash_args clash_uuid clash_now) (run (Init false) Missing)) =
      JArr items ∧
    list_incidents (ListArgs (Some "High") (Some "RESPOND") None (Some "SOC"))
        (run (Add clash_args clash_uuid clash_now) (run (Init false) Missing)) =
      (Done (List.filter (matches_ci (ListArgs (Some "High") (Some "RESPOND") None (Some "SOC"))) items),
       (run (Add clash_args clash_uuid clash_now) (run (Init false) Missing))) ∧
    list_incidents_printed (ListArgs (Some "High") (Some "RESPOND") None (Some "SOC"))
        (run (Add clash_args clash_uuid clash_now) (run (Init false) Missing)) =
      (report (List.filter (matches_ci (ListArgs (Some "High") (Some "RESPOND") None (Some "SOC"))) items), None).
Proof.
  at_sample (list_incidents_on_unseeded_store (ListArgs (Some "High") (Some "RESPOND") None (Some "SOC"))
           (run (Add clash_args clash_uuid clash_now) (run (Init false) Missing))).
  apply unseeded_step; [apply unseeded_step|].
  - apply unseeded_start.
  - reflexivity.
  - reflexivity.
Defined.

Lemma stats_on_unseeded_store_witness :
  ∃ items,
    _load (run (Add clash_args clash_uuid clash_now) (run (Init false) Missing)) =
      JArr items ∧
    (items = [] →
     stats (run (Add clash_args clash_uuid clash_now) (run (Init false) Missing)) =
       (Done NoIncidents,
        run (Add clash_args clash_uuid clash_now) (run (Init false) Missing))) ∧
    (items ≠ [] →
     ∃ by_sev by_phase by_status,
       stats (run (Add clash_args clash_uuid clash_now) (run (Init false) Missing)) =
         (Done (Counts by_sev by_phase by_status),
          run (Add clash_args clash_uuid clash_now) (run (Init false) Missing)) ∧
       total by_sev = length items ∧
       total by_phase = length items ∧
       total by_status = length items ∧
       forallb (is_word SEVERITIES) (keys by_sev) = true ∧
       forallb (is_word NIST_PHASES) (keys by_phase) = true ∧
       forallb (is_word STATUSES) (keys by_status) = true).
Proof.
  at_sample (stats_on_unseeded_store
           (run (Add clash_args clash_uuid clash_now) (run (Init false) Missing))).
  apply unseeded_step; [apply unseeded_step|].
  - apply unseeded_start.
  - reflexivity.
  - reflexivity.
Defined.




Lemma update_incident_sets_fields_witness :
  ∃ kvs',
    update_incident (UpdateArgs "1a2b3c4d" (Some "Contained") None (Some "") (Some "isolated"))
        clash_now (Holding (JArr [demo_record])) =
      (Done ["🛠️ Updated 1a2b3c4d"], Holding (JArr ([] ++ JObj kvs' :: []))) ∧
    dict_get "status" kvs' = Some (JStr "contained") ∧
    dict_get "phase" kvs' = dict_get "phase" demo_fields ∧
    dict_get "owner" kvs' = Some (JStr "") ∧
    dict_get "notes" kvs' = Some (JStr (joined "" "isolated")) ∧
    dict_get "updated_at" kvs' = Some (JStr (clash_now +:+ "Z")) ∧
    ∀ k, k ∉ updated_keys → dict_get k kvs' = dict_get k demo_fields.
Proof.
  at_sample (update_incident_sets_fields
           (UpdateArgs "1a2b3c4d" (Some "Contained") None (Some "") (Some "isolated"))
           clash_now (Holding (JArr [demo_record])) [demo_record] []
           demo_fields [] "").
  - reflexivity.
  - unfold first_match. simpl. done.
  - vm_compute. reflexivity.
  - vm_compute. reflexivity.
  - left. reflexivity.
Defined.

Lemma update_incident_missing_id_witness :
  update_incident (UpdateArgs "1a2b3c4d" (Some "closed") None None None)
      clash_now (Holding (JArr ([seeded_record] ++ nameless_record :: [demo_record]))) =
    (Raised (KeyError "id"),
     Holding (JArr ([seeded_record] ++ nameless_record :: [demo_record]))).
Proof.
  at_sample (update_incident_missing_id
           (UpdateArgs "1a2b3c4d" (Some "closed") None None None) clash_now
           (Holding (JArr ([seeded_record] ++ nameless_record :: [demo_record])))
           [seeded_record]
           [ ("title", JStr "Untracked"); ("severity", JStr "low");
             ("phase", JStr "detect"); ("status", JStr "open") ]
           [demo_record]).
  - reflexivity.
  - vm_compute. reflexivity.
  - reflexivity.
Defined.

Lemma list_incidents_returns_sublist_witness :
  sublist [seeded_record] [demo_record; seeded_record; demo_record].
Proof.
  at_sample (list_incidents_returns_sublist
           (ListArgs None (Some "Respond") None (Some "soc"))
           (Holding (JArr [demo_record; seeded_record; demo_record]))
           [demo_record; seeded_record; demo_record] [seeded_record]).
  - reflexivity.
  - vm_compute. reflexivity.
Defined.

Lemma list_incidents_idempotent_witness :
  list_incidents (ListArgs (Some "LOW") None None None)
      (Holding (JArr [demo_record; demo_record])) =
    (Done [demo_record; demo_record], Holding (JArr [demo_record; demo_record])).
Proof.
  at_sample (list_incidents_idempotent (ListArgs (Some "LOW") None None None)
           (Holding (JArr [demo_record; seeded_record; demo_record]))
           [demo_record; demo_record]).
  vm_compute. reflexivity.
Defined.

Lemma list_incidents_without_predicates_witness :
  list_incidents (ListArgs None (Some "") None None)
      (Holding (JArr [demo_record; ownerless_record; staffed_record])) =
    (Done [demo_record; ownerless_record; staffed_record],
     Holding (JArr [demo_record; ownerless_record; staffed_record])) ∧
  list_incidents_printed (ListArgs None (Some "") None None)
      (Holding (JArr [demo_record; ownerless_record; staffed_record])) =
    (report [demo_record; ownerless_record; staffed_record], None).
Proof.
  at_sample (list_incidents_without_predicates (ListArgs None (Some "") None None)
           (Holding (JArr [demo_record; ownerless_record; staffed_record]))
           [demo_record; ownerless_record; staffed_record]); reflexivity.
Defined.

Lemma stats_missing_severity_witness :
  stats (Holding (JArr ([demo_record] ++
                        JObj [("id", JStr "5e5e5e5e"); ("phase", JStr "detect")]
                        :: [seeded_record]))) =
    (Raised (KeyError "severity"),
     Holding (JArr ([demo_record] ++
                    JObj [("id", JStr "5e5e5e5e"); ("phase", JStr "detect")]
                    :: [seeded_record]))).
Proof.
  at_sample (stats_missing_severity
           (Holding (JArr ([demo_record] ++
                           JObj [("id", JStr "5e5e5e5e"); ("phase", JStr "detect")]
                           :: [seeded_record])))
           [demo_record]
           [("id", JStr "5e5e5e5e"); ("phase", JStr "detect")]
           [seeded_record]).
  - reflexivity.
  - vm_compute. reflexivity.
  - reflexivity.
Defined.

Lemma add_then_update_witness :
  ∃ kvs',
    update_incident (UpdateArgs "9f8e7d6c" (Some "In_Progress") None None None)
        "2024-05-04T07:00:00"
        (snd (add_incident clash_args "9f8e7d6c-5e6f-4a7b-8c9d-0e1f2a3b4c5d"
                clash_now (Holding (JArr [demo_record])))) =
      (Done ["🛠️ Updated " +:+ prefix 8 "9f8e7d6c-5e6f-4a7b-8c9d-0e1f2a3b4c5d"],
       Holding (JArr ([demo_record] ++ [JObj kvs']))) ∧
    ∀ k, k ∉ updated_keys →
      dict_get k kvs' =
        dict_get k (new_incident clash_args
                      "9f8e7d6c-5e6f-4a7b-8c9d-0e1f2a3b4c5d" clash_now).
Proof.
  at_sample (add_then_update clash_args "9f8e7d6c-5e6f-4a7b-8c9d-0e1f2a3b4c5d"
           clash_now
           (UpdateArgs "9f8e7d6c" (Some "In_Progress") None None None)
           "2024-05-04T07:00:00" (Holding (JArr [demo_record])) [demo_record]).
  - reflexivity.
  - vm_compute. reflexivity.
  - vm_compute. reflexivity.
  - vm_compute. reflexivity.
  - reflexivity.
  - vm_compute. reflexivity.
  - vm_compute. reflexivity.
Defined.

Lemma update_after_collision_witness :
  ∃ kvs',
    update_incident (UpdateArgs "1a2b3c4d" (Some "closed") None None None)
        "2024-05-04T07:00:00"
        (snd (add_incident clash_args clash_uuid clash_now
                (Holding (JArr [demo_record])))) =
      (Done ["🛠️ Updated " +:+ prefix 8 clash_uuid],
       Holding (JArr ([] ++ JObj kvs'
                        :: [] ++ [JObj (new_incident clash_args clash_uuid
                                          clash_now)]))) ∧
    update_fields (UpdateArgs "1a2b3c4d" (Some "closed") None None None)
      "2024-05-04T07:00:00" demo_fields = Done kvs'.
Proof.
  at_sample (update_after_collision clash_args clash_uuid clash_now
           (UpdateArgs "1a2b3c4d" (Some "closed") None None None)
           "2024-05-04T07:00:00" (Holding (JArr [demo_record])) [demo_record]
           [] demo_fields [] "").
  - reflexivity.
  - unfold first_match. simpl. done.
  - left. reflexivity.
  - vm_compute. reflexivity.
  - vm_compute. reflexivity.
  - reflexivity.
  - vm_compute. reflexivity.
  - vm_compute. reflexivity.
Defined.


(** ** Strings are read as characters *)

(** A character of two bytes counts once and is visited whole. *)
Lemma characters_not_bytes :
  py_len (JStr "né") = Done 2 ∧
  py_iter (JStr "né") = Done [JStr "n"; JStr "é"] ∧
  seed (Holding (JStr "é")) Missing =
    (Done ["🌱 Seeded 1 incidents into incidents.json"], Holding (JStr "é")).
Proof. split_and!; vm_compute; reflexivity. Qed.
